(** * Azure Functions extension: remote slot node and Python project set-up

    A shallow embedding of two units of the extension:

    - [PythonInitVSCodeStep] with its helpers [ensureGitIgnoreContents] and
      [ensureVenvInFuncIgnore] (ignore-file merging, task descriptors);
    - [SlotTreeItemBase] (cached site metadata, lazily created children,
      child picking by context value).

    JavaScript strings are modelled by [string]; [undefined] by [None];
    dictionaries and the file system by [gmap]. *)

From Stdlib Require Import Ascii String Bool Arith Lia.
From stdpp Require Import base option list strings gmap.

(** ** JavaScript string primitives *)

(** [s.startsWith(x)] *)
Fixpoint startsWith (s x : string) {struct x} : bool :=
  match x, s with
  | EmptyString, _ => true
  | String _ _, EmptyString => false
  | String a x', String b s' => if Ascii.eqb a b then startsWith s' x' else false
  end.

(** [s.includes(x)]: [x] occurs somewhere in [s]. *)
Fixpoint includes (s x : string) : bool :=
  startsWith s x ||
  match s with
  | EmptyString => false
  | String _ s' => includes s' x
  end.

(** Truthiness of a value of type [string | undefined]: only [undefined] and
    the empty string are falsy. *)
Definition truthy (o : option string) : bool :=
  match o with
  | Some EmptyString => false
  | Some (String _ _) => true
  | None => false
  end.

(** [c.toLowerCase()] on one code unit: only [A]..[Z] change. *)
Definition lowerAscii (c : ascii) : ascii :=
  let n := nat_of_ascii c in
  if (65 <=? n)%nat && (n <=? 90)%nat then ascii_of_nat (n + 32) else c.

(** [s.toLowerCase()] *)
Fixpoint toLowerCase (s : string) : string :=
  match s with
  | EmptyString => EmptyString
  | String c s' => String (lowerAscii c) (toLowerCase s')
  end.

(** ** Project initialisation for Python *)

Inductive Platform := MacOS | Windows | Linux.

(** What [PythonInitVSCodeStep.ts] imports from [constants], [os], [path],
    [extensionVariables] and [venvUtils]. *)
Class InitEnv := {
  path_join : string -> string -> string;
  EOL : string;
  gitignoreFileName : string;
  func : string;
  hostStartCommand : string;
  extInstallCommand : string;
  extInstallTaskName : string;
  funcWatchProblemMatcher : string;
  pythonVenvSetting : string;
  ext_prefix : string;
  convertToVenvPythonCommand : string -> string -> Platform -> string
}.

(** The disk as [fs-extra] sees it: the content of every existing file, and a
    journal of the [writeFile] calls made so far (most recent first). *)
Record Disk := {
  files : gmap string string;
  journal : list (string * string)
}.

Definition pathExists (p : string) (d : Disk) : bool :=
  bool_decide (is_Some (files d !! p)).

(** [(await fse.readFile(p)).toString()]; it is only called on a path that
    exists. *)
Definition readFile (p : string) (d : Disk) : string := default "" (files d !! p).

Definition writeFile (p data : string) (d : Disk) : Disk :=
  {| files := <[p := data]> (files d); journal := (p, data) :: journal d |}.

Inductive ProblemMatcher :=
| MatcherName (name : string)
| MatcherList (names : list string).

Record ShellCommand := { shell_command : string }.

(** A [TaskDefinition] literal; a key that the literal leaves out, or sets to
    [undefined], is [None]. *)
Record TaskDefinition := {
  label : option string;
  type : string;
  command : option string;
  problemMatcher : ProblemMatcher;
  isBackground : option bool;
  dependsOn : option string;
  osx : option ShellCommand;
  windows : option ShellCommand;
  linux : option ShellCommand
}.

Section PythonInit.
Context `{InitEnv}.

(** The loop of [ensureGitIgnoreContents]: the pair is
    ([gitignoreContents], [writeFile]). *)
Fixpoint mergeLines (lines : list string) (acc : string * bool) : string * bool :=
  match lines with
  | [] => acc
  | line :: rest =>
      let '(gitignoreContents, write) := acc in
      if negb (includes gitignoreContents line)
      then mergeLines rest (gitignoreContents +:+ EOL +:+ line, true)
      else mergeLines rest (gitignoreContents, write)
  end.

Definition ensureGitIgnoreContents (projectPath : string) (lines : list string)
    (d : Disk) : Disk :=
  let gitignorePath := path_join projectPath gitignoreFileName in
  if pathExists gitignorePath d then
    let '(gitignoreContents, write) :=
      mergeLines lines (readFile gitignorePath d, false) in
    if write then writeFile gitignorePath gitignoreContents d else d
  else d.

Definition pipInstallLabel : string := "pipInstall".

Definition venvSettingReference : string :=
  "${config:" +:+ ext_prefix +:+ "." +:+ pythonVenvSetting +:+ "}".

Definition getPipInstallCommand (platform : Platform) : string :=
  convertToVenvPythonCommand "pip install -r requirements.txt" venvSettingReference platform.

Definition hostStartTask (dependsOn : option string) : TaskDefinition :=
  {| label := None; type := func; command := Some hostStartCommand;
     problemMatcher := MatcherName funcWatchProblemMatcher;
     isBackground := Some true; dependsOn := dependsOn;
     osx := None; windows := None; linux := None |}.

Definition extInstallTask : TaskDefinition :=
  {| label := None; type := func; command := Some extInstallCommand;
     problemMatcher := MatcherList []; isBackground := None;
     dependsOn := Some pipInstallLabel;
     osx := None; windows := None; linux := None |}.

Definition pipInstallTask : TaskDefinition :=
  {| label := Some pipInstallLabel; type := "shell"; command := None;
     problemMatcher := MatcherList []; isBackground := None; dependsOn := None;
     osx := Some {| shell_command := getPipInstallCommand MacOS |};
     windows := Some {| shell_command := getPipInstallCommand Windows |};
     linux := Some {| shell_command := getPipInstallCommand Linux |} |}.

(** [getTasks], as a function of the two fields it reads. *)
Definition getTasks (requiresFuncExtensionsInstall : bool) (_venvName : option string)
    : list TaskDefinition :=
  let dependsOn : option string :=
    if requiresFuncExtensionsInstall then Some extInstallTaskName
    else if truthy _venvName then Some pipInstallLabel else None in
  let tasks := [hostStartTask dependsOn] in
  if truthy _venvName then
    let tasks :=
      if requiresFuncExtensionsInstall then tasks ++ [extInstallTask] else tasks in
    tasks ++ [pipInstallTask]
  else tasks.

End PythonInit.

(** ** The remote slot node *)

(** A context value handed to [pickTreeItemImpl]: [string | RegExp]. *)
Inductive ContextValue (R : Type) :=
| CvString (s : string)
| CvRegExp (r : R).
Arguments CvString {R} s.
Arguments CvRegExp {R} r.

(** What [SlotTreeItemBase.ts] imports: the runtime-version enumeration and its
    parser, the host.json parser, the models of the management SDK, regular
    expressions (compared by identity, as [===] does), the static context
    values of the child tree items and [matchesAnyPart] applied to the four
    function resources. Members of [FuncVersion] are non-empty strings, hence
    truthy; a parsed host.json is an object, hence truthy. *)
Class SiteEnv := {
  Error : Type;
  FuncVersion : Type;
  latestGAVersion : FuncVersion;
  parseVersion : string -> option FuncVersion;
  HostData : Type;
  IParsedHostJson : Type;
  parseHostJson : option HostData -> FuncVersion -> IParsedHostJson;
  SiteConfig : Type;
  SiteSourceControl : Type;
  RegExp : Type;
  RegExp_eq_dec :: EqDecision RegExp;
  RegExp_test : RegExp -> string -> bool;
  AppSettingsTreeItem_contextValue : ContextValue RegExp;
  AppSettingTreeItem_contextValue : ContextValue RegExp;
  ProxiesTreeItem_contextValue : ContextValue RegExp;
  ProxyTreeItem_contextValue : ContextValue RegExp;
  ProxyTreeItem_readOnlyContextValue : ContextValue RegExp;
  DeploymentsTreeItem_contextValueConnected : ContextValue RegExp;
  DeploymentsTreeItem_contextValueUnconnected : ContextValue RegExp;
  DeploymentTreeItem_contextValue : RegExp;
  matchesAnyPart_functionResources : RegExp -> bool
}.

(** [WebSiteManagementModels.StringDictionary] *)
Record StringDictionary := { properties : option (gmap string string) }.

(** [WebSiteManagementModels.SkuDescription] and [AppServicePlan], with the
    fields the node reads. *)
Record SkuDescription := { tier : option string }.
Record AppServicePlan := { sku : option SkuDescription }.

(** The methods of the node, and the remote operations they await. *)
Inductive Method :=
| MRefreshImpl | MGetVersion | MGetHostJson | MGetApplicationSettings
| MGetIsConsumption | MLoadMoreChildrenImpl | MIsReadOnly | MDeleteTreeItemImpl.

Inductive RemoteOp :=
| OpGetState | OpListApplicationSettings | OpGetKuduClient | OpGetHostSettings
| OpGetAppServicePlan | OpGetSiteConfig | OpGetSourceControl
| OpCreateFunctionsTreeItem | OpCreateProxiesTreeItem | OpDeleteSite.

(** One awaited remote operation: who issued it, what it was, and whether the
    promise resolved. *)
Record Event := { by_method : Method; remote : RemoteOp; resolved : bool }.

#[global] Instance Method_eq_dec : EqDecision Method.
Proof. solve_decision. Defined.
#[global] Instance RemoteOp_eq_dec : EqDecision RemoteOp.
Proof. solve_decision. Defined.
#[global] Instance ContextValue_eq_dec {R} `{EqDecision R} : EqDecision (ContextValue R).
Proof. solve_decision. Defined.

(** How often [method] has awaited [op] in a trace. *)
Definition fetches (method : Method) (op : RemoteOp) (trace : list Event) : nat :=
  length (filter (fun ev => by_method ev = method /\ remote ev = op) trace).

(** How often [op] resolved in a trace. *)
Definition successes (op : RemoteOp) (trace : list Event) : nat :=
  length (filter (fun ev => remote ev = op /\ resolved ev = true) trace).

(** A promise that has settled: resolved with a value, or rejected with an
    error. *)
Inductive Result (E A : Type) :=
| Ok (a : A)
| Throw (e : E).
Arguments Ok {E A} a.
Arguments Throw {E A} e.

Definition isOk {E A} (r : Result E A) : bool :=
  match r with Ok _ => true | Throw _ => false end.

Section SlotTreeItemBase.
Context `{SiteEnv}.

(** Tree items are objects: [id] is the identity the object got when it was
    constructed. *)
Inductive AzExtTreeItem :=
| RemoteFunctionsTreeItem (id : nat)
| AppSettingsTreeItem (id : nat)
| SiteFilesTreeItem (id : nat)
| LogFilesTreeItem (id : nat)
| DeploymentsTreeItem (id : nat) (siteConfig : SiteConfig) (sourceControl : SiteSourceControl)
| ProxiesTreeItem (id : nat).

(** The remote side. What a call answers may change from one call to the
    next: every operation is a function of the number of remote operations
    awaited before it. *)
Record KuduClient := { getHostSettings : nat -> Result Error (option HostData) }.

Record SiteClient := {
  initialState : option string;
  getState : nat -> Result Error (option string);
  listApplicationSettings : nat -> Result Error StringDictionary;
  getKuduClient : nat -> Result Error KuduClient;
  getAppServicePlan : nat -> Result Error (option AppServicePlan);
  getSiteConfig : nat -> Result Error SiteConfig;
  getSourceControl : nat -> Result Error SiteSourceControl;
  createFunctionsTreeItem : nat -> Result Error unit;
  createProxiesTreeItem : nat -> Result Error unit;
  deleteSite : nat -> Result Error unit
}.

(** The mutable fields of the class. *)
Record SlotTreeItemBase := {
  appSettingsTreeItem : AzExtTreeItem;
  deploymentsNode : option AzExtTreeItem;
  _state : option string;
  _functionsTreeItem : option AzExtTreeItem;
  _proxiesTreeItem : option AzExtTreeItem;
  _logFilesTreeItem : AzExtTreeItem;
  _siteFilesTreeItem : AzExtTreeItem;
  _cachedVersion : option FuncVersion;
  _cachedHostJson : option IParsedHostJson;
  _cachedIsConsumption : option bool
}.

(** A node at run time: its fields, the remote operations awaited so far
    (most recent first) and the number of tree items constructed so far. *)
Record Machine := {
  this : SlotTreeItemBase;
  trace : list Event;
  allocated : nat
}.

Definition M (A : Type) : Type := Machine -> Result Error A * Machine.

#[local] Instance M_ret : MRet M := fun A a m => (Ok a, m).

#[local] Instance M_bind : MBind M := fun A B f c m =>
  match c m with
  | (Ok a, m') => f a m'
  | (Throw e, m') => (Throw e, m')
  end.

(** [try { body } catch { handler }] *)
Definition tryCatch {A} (body : M A) (handler : M A) : M A := fun m =>
  match body m with
  | (Ok a, m') => (Ok a, m')
  | (Throw _, m') => handler m'
  end.

(** [await] of one remote operation issued by [method]. *)
Definition await {A} (method : Method) (op : RemoteOp) (answer : nat -> Result Error A) : M A :=
  fun m =>
    let r := answer (length (trace m)) in
    (r, {| this := this m;
           trace := {| by_method := method; remote := op; resolved := isOk r |} :: trace m;
           allocated := allocated m |}).

(** [new C(...)]: the constructor [C] receives a fresh identity. *)
Definition new (C : nat -> AzExtTreeItem) : M AzExtTreeItem := fun m =>
  (Ok (C (allocated m)),
   {| this := this m; trace := trace m; allocated := S (allocated m) |}).

Definition read {A} (field : SlotTreeItemBase -> A) : M A := fun m => (Ok (field (this m)), m).

Definition update (f : SlotTreeItemBase -> SlotTreeItemBase) : M unit := fun m =>
  (Ok tt, {| this := f (this m); trace := trace m; allocated := allocated m |}).

Definition set_deploymentsNode v (t : SlotTreeItemBase) : SlotTreeItemBase :=
  {| appSettingsTreeItem := appSettingsTreeItem t; deploymentsNode := v;
     _state := _state t; _functionsTreeItem := _functionsTreeItem t;
     _proxiesTreeItem := _proxiesTreeItem t; _logFilesTreeItem := _logFilesTreeItem t;
     _siteFilesTreeItem := _siteFilesTreeItem t; _cachedVersion := _cachedVersion t;
     _cachedHostJson := _cachedHostJson t; _cachedIsConsumption := _cachedIsConsumption t |}.

Definition set_state v (t : SlotTreeItemBase) : SlotTreeItemBase :=
  {| appSettingsTreeItem := appSettingsTreeItem t; deploymentsNode := deploymentsNode t;
     _state := v; _functionsTreeItem := _functionsTreeItem t;
     _proxiesTreeItem := _proxiesTreeItem t; _logFilesTreeItem := _logFilesTreeItem t;
     _siteFilesTreeItem := _siteFilesTreeItem t; _cachedVersion := _cachedVersion t;
     _cachedHostJson := _cachedHostJson t; _cachedIsConsumption := _cachedIsConsumption t |}.

Definition set_functionsTreeItem v (t : SlotTreeItemBase) : SlotTreeItemBase :=
  {| appSettingsTreeItem := appSettingsTreeItem t; deploymentsNode := deploymentsNode t;
     _state := _state t; _functionsTreeItem := v;
     _proxiesTreeItem := _proxiesTreeItem t; _logFilesTreeItem := _logFilesTreeItem t;
     _siteFilesTreeItem := _siteFilesTreeItem t; _cachedVersion := _cachedVersion t;
     _cachedHostJson := _cachedHostJson t; _cachedIsConsumption := _cachedIsConsumption t |}.

Definition set_proxiesTreeItem v (t : SlotTreeItemBase) : SlotTreeItemBase :=
  {| appSettingsTreeItem := appSettingsTreeItem t; deploymentsNode := deploymentsNode t;
     _state := _state t; _functionsTreeItem := _functionsTreeItem t;
     _proxiesTreeItem := v; _logFilesTreeItem := _logFilesTreeItem t;
     _siteFilesTreeItem := _siteFilesTreeItem t; _cachedVersion := _cachedVersion t;
     _cachedHostJson := _cachedHostJson t; _cachedIsConsumption := _cachedIsConsumption t |}.

Definition set_cachedVersion v (t : SlotTreeItemBase) : SlotTreeItemBase :=
  {| appSettingsTreeItem := appSettingsTreeItem t; deploymentsNode := deploymentsNode t;
     _state := _state t; _functionsTreeItem := _functionsTreeItem t;
     _proxiesTreeItem := _proxiesTreeItem t; _logFilesTreeItem := _logFilesTreeItem t;
     _siteFilesTreeItem := _siteFilesTreeItem t; _cachedVersion := v;
     _cachedHostJson := _cachedHostJson t; _cachedIsConsumption := _cachedIsConsumption t |}.

Definition set_cachedHostJson v (t : SlotTreeItemBase) : SlotTreeItemBase :=
  {| appSettingsTreeItem := appSettingsTreeItem t; deploymentsNode := deploymentsNode t;
     _state := _state t; _functionsTreeItem := _functionsTreeItem t;
     _proxiesTreeItem := _proxiesTreeItem t; _logFilesTreeItem := _logFilesTreeItem t;
     _siteFilesTreeItem := _siteFilesTreeItem t; _cachedVersion := _cachedVersion t;
     _cachedHostJson := v; _cachedIsConsumption := _cachedIsConsumption t |}.

Definition set_cachedIsConsumption v (t : SlotTreeItemBase) : SlotTreeItemBase :=
  {| appSettingsTreeItem := appSettingsTreeItem t; deploymentsNode := deploymentsNode t;
     _state := _state t; _functionsTreeItem := _functionsTreeItem t;
     _proxiesTreeItem := _proxiesTreeItem t; _logFilesTreeItem := _logFilesTreeItem t;
     _siteFilesTreeItem := _siteFilesTreeItem t; _cachedVersion := _cachedVersion t;
     _cachedHostJson := _cachedHostJson t; _cachedIsConsumption := v |}.

Variable client : SiteClient.

(** The constructor: the three cheap children are built at once, the lazy
    ones and the caches start out [undefined]. *)
Definition constructor : Machine :=
  {| this :=
       {| appSettingsTreeItem := AppSettingsTreeItem 0; deploymentsNode := None;
          _state := initialState client; _functionsTreeItem := None;
          _proxiesTreeItem := None; _logFilesTreeItem := LogFilesTreeItem 2;
          _siteFilesTreeItem := SiteFilesTreeItem 1; _cachedVersion := None;
          _cachedHostJson := None; _cachedIsConsumption := None |};
     trace := [];
     allocated := 3 |}.

(** [description]: the state, unless the site is running. *)
Definition description (t : SlotTreeItemBase) : option string :=
  if truthy (_state t) && negb (String.eqb (toLowerCase (default "" (_state t))) "running")
  then _state t else None.

Definition refreshImpl : M unit :=
  update (set_cachedVersion None) ;;
  update (set_cachedHostJson None) ;;
  update (set_cachedIsConsumption None) ;;
  tryCatch
    (state ← await MRefreshImpl OpGetState (getState client);
     update (set_state state))
    (update (set_state (Some "Unknown"))).

(** Modelled from the spec: [tryParseFuncVersion] of [FuncVersion.ts], which
    is not among the sources. An absent setting parses to nothing; a present
    one is handed to the parser of the enumeration. *)
Definition tryParseFuncVersion (data : option string) : option FuncVersion :=
  data ≫= parseVersion.

Definition getVersion : M FuncVersion :=
  result ← read _cachedVersion;
  match result with
  | None =>
      version ← tryCatch
        (appSettings ← await MGetVersion OpListApplicationSettings
                         (listApplicationSettings client);
         mret (tryParseFuncVersion
                 (properties appSettings ≫= fun p => p !! "FUNCTIONS_EXTENSION_VERSION")))
        (mret None);
      let result := default latestGAVersion version in
      update (set_cachedVersion (Some result)) ;;
      mret result
  | Some result => mret result
  end.

Definition getHostJson : M IParsedHostJson :=
  result ← read _cachedHostJson;
  match result with
  | None =>
      data ← tryCatch
        (kuduClient ← await MGetHostJson OpGetKuduClient (getKuduClient client);
         await MGetHostJson OpGetHostSettings (getHostSettings kuduClient))
        (mret None);
      version ← getVersion;
      let result := parseHostJson data version in
      update (set_cachedHostJson (Some result)) ;;
      mret result
  | Some result => mret result
  end.

Definition getApplicationSettings : M (gmap string string) :=
  appSettings ← await MGetApplicationSettings OpListApplicationSettings
                  (listApplicationSettings client);
  mret (default ∅ (properties appSettings)).

(** [!asp || !asp.sku || !asp.sku.tier || asp.sku.tier.toLowerCase() === 'dynamic'] *)
Definition isConsumptionPlan (asp : option AppServicePlan) : bool :=
  match asp with
  | None => true
  | Some asp =>
      match sku asp with
      | None => true
      | Some sku =>
          negb (truthy (tier sku))
          || String.eqb (toLowerCase (default "" (tier sku))) "dynamic"
      end
  end.

Definition getIsConsumption : M bool :=
  result ← read _cachedIsConsumption;
  match result with
  | None =>
      result ← tryCatch
        (asp ← await MGetIsConsumption OpGetAppServicePlan (getAppServicePlan client);
         mret (isConsumptionPlan asp))
        (mret true);
      update (set_cachedIsConsumption (Some result)) ;;
      mret result
  | Some result => mret result
  end.

Definition loadMoreChildrenImpl : M (list AzExtTreeItem) :=
  siteConfig ← await MLoadMoreChildrenImpl OpGetSiteConfig (getSiteConfig client);
  sourceControl ← await MLoadMoreChildrenImpl OpGetSourceControl (getSourceControl client);
  deployments ← new (fun id => DeploymentsTreeItem id siteConfig sourceControl);
  update (set_deploymentsNode (Some deployments)) ;;
  existing ← read _functionsTreeItem;
  functions ← match existing with
              | None =>
                  await MLoadMoreChildrenImpl OpCreateFunctionsTreeItem
                    (createFunctionsTreeItem client) ;;
                  created ← new RemoteFunctionsTreeItem;
                  update (set_functionsTreeItem (Some created)) ;;
                  mret created
              | Some item => mret item
              end;
  existing ← read _proxiesTreeItem;
  proxies ← match existing with
            | None =>
                await MLoadMoreChildrenImpl OpCreateProxiesTreeItem
                  (createProxiesTreeItem client) ;;
                created ← new ProxiesTreeItem;
                update (set_proxiesTreeItem (Some created)) ;;
                mret created
            | Some item => mret item
            end;
  appSettings ← read appSettingsTreeItem;
  siteFiles ← read _siteFilesTreeItem;
  logFiles ← read _logFilesTreeItem;
  mret [functions; appSettings; siteFiles; logFiles; deployments; proxies].

(** The [switch] of [pickTreeItemImpl] on one context value: [Some child]
    when a [return] is reached ([child] itself may be [undefined]), [None]
    when the loop goes on. *)
Definition pickSwitch (t : SlotTreeItemBase) (expectedContextValue : ContextValue RegExp)
    : option (option AzExtTreeItem) :=
  if bool_decide (expectedContextValue = AppSettingsTreeItem_contextValue)
     || bool_decide (expectedContextValue = AppSettingTreeItem_contextValue)
  then Some (Some (appSettingsTreeItem t))
  else if bool_decide (expectedContextValue = ProxiesTreeItem_contextValue)
          || bool_decide (expectedContextValue = ProxyTreeItem_contextValue)
          || bool_decide (expectedContextValue = ProxyTreeItem_readOnlyContextValue)
  then Some (_proxiesTreeItem t)
  else if bool_decide (expectedContextValue = DeploymentsTreeItem_contextValueConnected)
          || bool_decide (expectedContextValue = DeploymentsTreeItem_contextValueUnconnected)
          || bool_decide (expectedContextValue = CvRegExp DeploymentTreeItem_contextValue)
  then Some (deploymentsNode t)
  else match expectedContextValue with
       | CvString s =>
           if RegExp_test DeploymentTreeItem_contextValue s
           then Some (deploymentsNode t) else None
       | CvRegExp r =>
           if matchesAnyPart_functionResources r
           then Some (_functionsTreeItem t) else None
       end.

Fixpoint pickTreeItemImpl (t : SlotTreeItemBase)
    (expectedContextValues : list (ContextValue RegExp)) : option AzExtTreeItem :=
  match expectedContextValues with
  | [] => None
  | expectedContextValue :: rest =>
      match pickSwitch t expectedContextValue with
      | Some child => child
      | None => pickTreeItemImpl t rest
      end
  end.

Definition isReadOnly : M bool :=
  appSettings ← await MIsReadOnly OpListApplicationSettings (listApplicationSettings client);
  mret match properties appSettings with
       | None => false
       | Some p => truthy (p !! "WEBSITE_RUN_FROM_PACKAGE") || truthy (p !! "WEBSITE_RUN_FROM_ZIP")
       end.

Definition deleteTreeItemImpl : M unit :=
  await MDeleteTreeItemImpl OpDeleteSite (deleteSite client).

(** *** Sequences of calls on one node *)

Inductive Call :=
| CallRefresh
| CallGetVersion
| CallGetHostJson
| CallGetApplicationSettings
| CallGetIsConsumption
| CallLoadMoreChildren
| CallPickTreeItem (expectedContextValues : list (ContextValue RegExp))
| CallIsReadOnly
| CallDeleteTreeItem.

(** What a call handed back to its caller. *)
Inductive Outcome :=
| Returned
| ReturnedVersion (v : FuncVersion)
| ReturnedHostJson (h : IParsedHostJson)
| ReturnedSettings (s : gmap string string)
| ReturnedBool (method : Method) (b : bool)
| ReturnedChildren (children : list AzExtTreeItem)
| ReturnedPick (child : option AzExtTreeItem)
| Rejected (method : Method) (e : Error).

Definition settle {A} (method : Method) (wrap : A -> Outcome) (c : M A)
    (m : Machine) : Outcome * Machine :=
  match c m with
  | (Ok a, m') => (wrap a, m')
  | (Throw e, m') => (Rejected method e, m')
  end.

Definition perform (call : Call) (m : Machine) : Outcome * Machine :=
  match call with
  | CallRefresh => settle MRefreshImpl (fun _ => Returned) refreshImpl m
  | CallGetVersion => settle MGetVersion ReturnedVersion getVersion m
  | CallGetHostJson => settle MGetHostJson ReturnedHostJson getHostJson m
  | CallGetApplicationSettings =>
      settle MGetApplicationSettings ReturnedSettings getApplicationSettings m
  | CallGetIsConsumption =>
      settle MGetIsConsumption (ReturnedBool MGetIsConsumption) getIsConsumption m
  | CallLoadMoreChildren =>
      settle MLoadMoreChildrenImpl ReturnedChildren loadMoreChildrenImpl m
  | CallPickTreeItem vs => (ReturnedPick (pickTreeItemImpl (this m) vs), m)
  | CallIsReadOnly => settle MIsReadOnly (ReturnedBool MIsReadOnly) isReadOnly m
  | CallDeleteTreeItem => settle MDeleteTreeItemImpl (fun _ => Returned) deleteTreeItemImpl m
  end.

(** The calls are made one after the other; the caller goes on whatever a
    call handed back. *)
Fixpoint run (calls : list Call) (m : Machine) : list Outcome * Machine :=
  match calls with
  | [] => ([], m)
  | call :: rest =>
      let '(o, m') := perform call m in
      let '(os, m'') := run rest m' in
      (o :: os, m'')
  end.

End SlotTreeItemBase.

(** ** Auxiliary notions used in the statements *)

Section Notions.
Context `{SiteEnv}.

(** 1 when a cache field holds a value, 0 when it is [undefined]. *)
Definition filled {A} (cache : option A) : nat :=
  match cache with Some _ => 1 | None => 0 end.

Definition itemId (item : AzExtTreeItem) : nat :=
  match item with
  | RemoteFunctionsTreeItem id | AppSettingsTreeItem id | SiteFilesTreeItem id
  | LogFilesTreeItem id | DeploymentsTreeItem id _ _ | ProxiesTreeItem id => id
  end.

(** Every tree item a node refers to was constructed before now. *)
Definition olderThan (n : nat) (item : option AzExtTreeItem) : Prop :=
  match item with Some i => itemId i < n | None => True end.

Definition wellFormed (m : Machine) : Prop :=
  olderThan (allocated m) (Some (appSettingsTreeItem (this m)))
  /\ olderThan (allocated m) (Some (_siteFilesTreeItem (this m)))
  /\ olderThan (allocated m) (Some (_logFilesTreeItem (this m)))
  /\ olderThan (allocated m) (deploymentsNode (this m))
  /\ olderThan (allocated m) (_functionsTreeItem (this m))
  /\ olderThan (allocated m) (_proxiesTreeItem (this m)).

(** The three caches are [undefined]. *)
Definition allEmpty (m : Machine) : Prop :=
  _cachedVersion (this m) = None
  /\ _cachedHostJson (this m) = None
  /\ _cachedIsConsumption (this m) = None.

(** What holds of a node all its life: the three cheap children are those
    of the constructor, every child was constructed before now, and a lazy
    child has been created successfully at most as often as the field that
    holds it is filled. *)
Definition lifelong (m : Machine) : Prop :=
  appSettingsTreeItem (this m) = AppSettingsTreeItem 0
  /\ _siteFilesTreeItem (this m) = SiteFilesTreeItem 1
  /\ _logFilesTreeItem (this m) = LogFilesTreeItem 2
  /\ wellFormed m
  /\ successes OpCreateFunctionsTreeItem (trace m) <= filled (_functionsTreeItem (this m))
  /\ successes OpCreateProxiesTreeItem (trace m) <= filled (_proxiesTreeItem (this m)).




Definition isAccessor (c : Call) : bool :=
  match c with
  | CallGetVersion | CallGetHostJson | CallGetIsConsumption => true
  | _ => false
  end.

Definition isRefresh (c : Call) : bool :=
  match c with CallRefresh => true | _ => false end.

Definition isLoadMoreChildren (c : Call) : bool :=
  match c with CallLoadMoreChildren => true | _ => false end.

(** The lookup table of [pickChild] as the specification words it: which
    child a marker stands for, if any. *)
Inductive Child := AppSettingsChild | ProxiesChild | DeploymentsChild | FunctionsChild.

Definition isSettingsMarker (v : ContextValue RegExp) : bool :=
  bool_decide (v = AppSettingsTreeItem_contextValue)
  || bool_decide (v = AppSettingTreeItem_contextValue).

Definition isProxyMarker (v : ContextValue RegExp) : bool :=
  bool_decide (v = ProxiesTreeItem_contextValue)
  || bool_decide (v = ProxyTreeItem_contextValue)
  || bool_decide (v = ProxyTreeItem_readOnlyContextValue).

(** A deployment marker matches by exact value, or by the pattern test when
    it is a string. *)
Definition isDeploymentMarker (v : ContextValue RegExp) : bool :=
  bool_decide (v = DeploymentsTreeItem_contextValueConnected)
  || bool_decide (v = DeploymentsTreeItem_contextValueUnconnected)
  || bool_decide (v = CvRegExp DeploymentTreeItem_contextValue)
  || match v with
     | CvString s => RegExp_test DeploymentTreeItem_contextValue s
     | CvRegExp _ => false
     end.

(** A function-resource marker is a pattern accepted by the multi-part
    matcher. *)
Definition isFunctionMarker (v : ContextValue RegExp) : bool :=
  match v with
  | CvString _ => false
  | CvRegExp r => matchesAnyPart_functionResources r
  end.

Definition lookupTable (v : ContextValue RegExp) : option Child :=
  if isSettingsMarker v then Some AppSettingsChild
  else if isProxyMarker v then Some ProxiesChild
  else if isDeploymentMarker v then Some DeploymentsChild
  else if isFunctionMarker v then Some FunctionsChild
  else None.

Definition childOf (t : SlotTreeItemBase) (c : Child) : option AzExtTreeItem :=
  match c with
  | AppSettingsChild => Some (appSettingsTreeItem t)
  | ProxiesChild => _proxiesTreeItem t
  | DeploymentsChild => deploymentsNode t
  | FunctionsChild => _functionsTreeItem t
  end.

(** The child of the first marker that the table knows. *)
Definition pickChild (t : SlotTreeItemBase) (markers : list (ContextValue RegExp))
    : option AzExtTreeItem :=
  head (omap lookupTable markers) ≫= childOf t.

End Notions.

(** ** Sample environments *)

Definition lineFeed : string := String (ascii_of_nat 10) EmptyString.

Definition sampleInitEnv : InitEnv :=
  {| path_join := fun dir file => dir +:+ "/" +:+ file;
     EOL := lineFeed;
     gitignoreFileName := ".gitignore";
     func := "func";
     hostStartCommand := "host start";
     extInstallCommand := "extensions install";
     extInstallTaskName := "func: extensions install";
     funcWatchProblemMatcher := "$func-watch";
     pythonVenvSetting := "pythonVenv";
     ext_prefix := "azureFunctions";
     convertToVenvPythonCommand := fun cmd venv platform =>
       match platform with
       | Windows => venv +:+ "\Scripts\python -m " +:+ cmd
       | MacOS | Linux => venv +:+ "/bin/python -m " +:+ cmd
       end |}.

Inductive SampleVersion := SampleV1 | SampleV2 | SampleV3.

Definition sampleParseVersion (s : string) : option SampleVersion :=
  if String.eqb s "~1" then Some SampleV1
  else if String.eqb s "~2" then Some SampleV2
  else if String.eqb s "~3" then Some SampleV3
  else None.

(** Regular expressions are numbered objects here: number 0 tests for a
    deployment context value, number 1 is a pattern the function matcher
    accepts. *)
Definition sampleSiteEnv : SiteEnv :=
  {| Error := string;
     FuncVersion := SampleVersion;
     latestGAVersion := SampleV3;
     parseVersion := sampleParseVersion;
     HostData := string;
     IParsedHostJson := option string * SampleVersion;
     parseHostJson := pair;
     SiteConfig := string;
     SiteSourceControl := string;
     RegExp := nat;
     RegExp_test := fun r s => Nat.eqb r 0 && startsWith s "deployment/";
     AppSettingsTreeItem_contextValue := CvString "applicationSettings";
     AppSettingTreeItem_contextValue := CvString "applicationSettingItem";
     ProxiesTreeItem_contextValue := CvString "azFuncProxies";
     ProxyTreeItem_contextValue := CvString "azFuncProxy";
     ProxyTreeItem_readOnlyContextValue := CvString "azFuncProxyReadOnly";
     DeploymentsTreeItem_contextValueConnected := CvString "deploymentsConnected";
     DeploymentsTreeItem_contextValueUnconnected := CvString "deploymentsUnconnected";
     DeploymentTreeItem_contextValue := 0;
     matchesAnyPart_functionResources := fun r => Nat.eqb r 1 |}.

(** A site on a plan of the given tier, whose every remote operation
    resolves. *)
Definition sampleClient (planTier : option string) : @SiteClient sampleSiteEnv :=
  {| initialState := Some "Running";
     getState := fun _ => Ok (Some "Running");
     listApplicationSettings := fun _ =>
       Ok {| properties := Some {[ "FUNCTIONS_EXTENSION_VERSION" := "~2" ]} |};
     getKuduClient := fun _ => Ok (@Build_KuduClient sampleSiteEnv (fun _ => Ok (Some "{}")));
     getAppServicePlan := fun _ => Ok (Some {| sku := Some {| tier := planTier |} |});
     getSiteConfig := fun _ => Ok "config";
     getSourceControl := fun _ => Ok "scm";
     createFunctionsTreeItem := fun _ => Ok tt;
     createProxiesTreeItem := fun _ => Ok tt;
     deleteSite := fun _ => Ok tt |}.

(** A site none of whose remote operations resolves. *)
Definition unreachableClient : @SiteClient sampleSiteEnv :=
  let down {A} (_ : nat) : Result (@Error sampleSiteEnv) A := Throw "ECONNRESET" in
  {| initialState := None;
     getState := down;
     listApplicationSettings := down;
     getKuduClient := down;
     getAppServicePlan := down;
     getSiteConfig := down;
     getSourceControl := down;
     createFunctionsTreeItem := down;
     createProxiesTreeItem := down;
     deleteSite := down |}.

(** Sample call sequences and markers on a sample site. *)
Definition accessorCalls : list (@Call sampleSiteEnv) :=
  [CallGetVersion; CallGetHostJson; CallGetVersion; CallGetIsConsumption;
   CallLoadMoreChildren; CallGetHostJson; CallGetIsConsumption; CallGetVersion].

Definition otherCalls : list (@Call sampleSiteEnv) :=
  [CallGetApplicationSettings; CallLoadMoreChildren; CallIsReadOnly].

Definition callsBeforeLoad : list (@Call sampleSiteEnv) :=
  [CallRefresh; CallGetVersion; CallGetHostJson; CallGetIsConsumption].

Definition proxiesMarker : ContextValue (@RegExp sampleSiteEnv) := CvString "azFuncProxies".
Definition functionsMarker : ContextValue (@RegExp sampleSiteEnv) := CvRegExp 1.
Definition settingsMarker : ContextValue (@RegExp sampleSiteEnv) :=
  CvString "applicationSettings".
Definition unknownMarker : ContextValue (@RegExp sampleSiteEnv) := CvString "azFuncLocalProject".

(** The sample site after its children were loaded once. *)
Definition loadedNode : @SlotTreeItemBase sampleSiteEnv :=
  this (run (sampleClient (Some "Dynamic")) [CallLoadMoreChildren]
          (constructor (sampleClient (Some "Dynamic")))).2.


(** ** File operations that may be refused *)

(** [fse.readFile] and [fse.writeFile] reject when the operating system
    refuses the operation: a missing directory, a directory in place of the
    file, missing permissions, a full disk. Which operations are refused,
    with which error, and what a refused write leaves on the disk, is not
    decided by the content of the files: it is a parameter. ([fse.pathExists]
    never rejects.) *)
Class FileFaults := {
  readFault : string -> Disk -> option string;
  writeFault : string -> string -> Disk -> option (string * Disk)
}.

Section FallibleFiles.
Context `{InitEnv} `{FileFaults}.

(** [(await fse.readFile(p)).toString()] *)
Definition fse_readFile (p : string) (d : Disk) : Result string string :=
  match readFault p d with
  | Some e => Throw e
  | None => Ok (readFile p d)
  end.

(** [await fse.writeFile(p, data)] *)
Definition fse_writeFile (p data : string) (d : Disk) : Result string unit * Disk :=
  match writeFault p data d with
  | Some (e, remains) => (Throw e, remains)
  | None => (Ok tt, writeFile p data d)
  end.

(** [ensureGitIgnoreContents] as the promise that [executeCore] awaits: the
    steps of the function, with a read and a write that may be refused. *)
Definition ensureGitIgnoreContentsAsync (projectPath : string) (lines : list string)
    (d : Disk) : Result string unit * Disk :=
  let gitignorePath := path_join projectPath gitignoreFileName in
  if pathExists gitignorePath d then
    match fse_readFile gitignorePath d with
    | Throw e => (Throw e, d)
    | Ok contents =>
        let '(gitignoreContents, write) := mergeLines lines (contents, false) in
        if write then fse_writeFile gitignorePath gitignoreContents d else (Ok tt, d)
    end
  else (Ok tt, d).

Definition ensureVenvInFuncIgnore (projectPath venvName : string) (d : Disk)
    : Result string unit * Disk :=
  let funcIgnorePath := path_join projectPath ".funcignore" in
  let read : Result string (option string) :=
    if pathExists funcIgnorePath d then
      match fse_readFile funcIgnorePath d with
      | Throw e => Throw e
      | Ok contents =>
          if truthy (Some contents) && negb (includes contents venvName)
          then Ok (Some (contents +:+ EOL +:+ venvName))
          else Ok (Some contents)
      end
    else Ok None in
  match read with
  | Throw e => (Throw e, d)
  | Ok funcIgnoreContents =>
      let funcIgnoreContents : string :=
        if negb (truthy funcIgnoreContents) then venvName
        else default venvName funcIgnoreContents in
      fse_writeFile funcIgnorePath funcIgnoreContents d
  end.

(** What [ensureVenvInFuncIgnore] hands to [writeFile], given what the file
    holds. *)
Definition funcIgnoreContentsFor (venvName : string) (existing : option string) : string :=
  match existing with
  | None | Some EmptyString => venvName
  | Some old => if includes old venvName then old else old +:+ EOL +:+ venvName
  end.

End FallibleFiles.

(** A file system that refuses nothing, and one in which a new file can be
    created under [proj] only: elsewhere the directory is missing. *)
Definition noFaults : FileFaults :=
  {| readFault := fun _ _ => None; writeFault := fun _ _ _ => None |}.

Definition missingDirectoryFaults : FileFaults :=
  {| readFault := fun _ _ => None;
     writeFault := fun p _ d =>
       if pathExists p d || startsWith p "proj/" then None else Some ("ENOENT", d) |}.

(** ** The initialisation step as a whole *)

(** A setting that the step asks the settings writer to add. *)
Inductive SettingValue :=
| BoolSetting (b : bool)
| StringSetting (s : string).

Record ISettingToAdd := { key : string; value : SettingValue }.

(** The fields of [PythonInitVSCodeStep] and of its base classes that
    [executeCore] and [getTasks] use. *)
Record PythonInitVSCodeStep := {
  settings : list ISettingToAdd;
  _venvName : option string;
  requiresFuncExtensionsInstall : bool
}.

Section PythonInitStep.
Context `{InitEnv} `{FileFaults}.

(** [super.executeCore] of [ScriptInitVSCodeStep] and [getExistingVenv] of
    [PythonProjectCreateStep] are not among the sources: both are awaited,
    both may reject, and the first may change the step and the disk in any
    way. *)
Variable superExecuteCore :
  string -> PythonInitVSCodeStep -> Disk -> Result string unit * PythonInitVSCodeStep * Disk.
Variable getExistingVenv : string -> Disk -> Result string (option string).

Definition push (setting : ISettingToAdd) (step : PythonInitVSCodeStep) : PythonInitVSCodeStep :=
  {| settings := settings step ++ [setting]; _venvName := _venvName step;
     requiresFuncExtensionsInstall := requiresFuncExtensionsInstall step |}.

Definition set_venvName (v : option string) (step : PythonInitVSCodeStep)
    : PythonInitVSCodeStep :=
  {| settings := settings step; _venvName := v;
     requiresFuncExtensionsInstall := requiresFuncExtensionsInstall step |}.

(** The lines that [executeCore] wants in [.gitignore]. *)
Definition gitignoreLinesFor (venv : option string) : list string :=
  let gitignoreLines := [".python_packages"; "__pycache__"] in
  if truthy venv then gitignoreLines ++ [default "" venv] else gitignoreLines.

Definition executeCore (projectPath : string) (step : PythonInitVSCodeStep) (d : Disk)
    : Result string unit * PythonInitVSCodeStep * Disk :=
  match superExecuteCore projectPath step d with
  | (Throw e, step, d) => (Throw e, step, d)
  | (Ok _, step, d) =>
      let step := push {| key := "scmDoBuildDuringDeployment"; value := BoolSetting true |} step in
      match getExistingVenv projectPath d with
      | Throw e => (Throw e, step, d)
      | Ok venv =>
          let step := set_venvName venv step in
          let rest (step : PythonInitVSCodeStep) (d : Disk) :=
            let '(outcome, d) :=
              ensureGitIgnoreContentsAsync projectPath (gitignoreLinesFor (_venvName step)) d in
            (outcome, step, d) in
          if truthy (_venvName step) then
            let step :=
              push {| key := pythonVenvSetting;
                      value := StringSetting (default "" (_venvName step)) |} step in
            match ensureVenvInFuncIgnore projectPath (default "" (_venvName step)) d with
            | (Throw e, d) => (Throw e, step, d)
            | (Ok _, d) => rest step d
            end
          else rest step d
      end
  end.

(** [getTasks] on the fields of a step. *)
Definition tasksOf (step : PythonInitVSCodeStep) : list TaskDefinition :=
  getTasks (requiresFuncExtensionsInstall step) (_venvName step).

(** [getRecommendedExtensions] *)
Definition getRecommendedExtensions : list string := ["ms-python.python"].

(** The text that [ensureGitIgnoreContents] appends for the lines it adds. *)
Definition appendedLines (added : list string) : string :=
  foldr (fun line rest => EOL +:+ line +:+ rest) "" added.

End PythonInitStep.

(** A base step that does nothing, and a project with a venv [.venv]. *)
Definition sampleSuperExecuteCore (projectPath : string) (step : PythonInitVSCodeStep)
    (d : Disk) : Result string unit * PythonInitVSCodeStep * Disk :=
  (Ok tt, step, d).

Definition sampleGetExistingVenv (projectPath : string) (d : Disk)
    : Result string (option string) :=
  Ok (Some ".venv").

Definition sampleStep : PythonInitVSCodeStep :=
  {| settings := []; _venvName := None; requiresFuncExtensionsInstall := true |}.

Definition sampleDisk : Disk :=
  {| files := {[ "proj/.gitignore" := "bin" +:+ lineFeed +:+ "obj" ]}; journal := [] |}.

Definition sampleLines : list string := [".python_packages"; "__pycache__"; ".venv"].

(** ** More notions on calls *)

Section MoreNotions.
Context `{SiteEnv}.

Definition isGetApplicationSettings (c : Call) : bool :=
  match c with CallGetApplicationSettings => true | _ => false end.

Definition isIsReadOnly (c : Call) : bool :=
  match c with CallIsReadOnly => true | _ => false end.

(** The calls whose body catches what its remote operations throw, or awaits
    none. *)
Definition absorbsFailure (c : Call) : bool :=
  match c with
  | CallRefresh | CallGetVersion | CallGetHostJson | CallGetIsConsumption
  | CallPickTreeItem _ => true
  | _ => false
  end.

Definition isRejected (o : Outcome) : bool :=
  match o with Rejected _ _ => true | _ => false end.

(** A cached host.json is the parse of some data under the cached version. *)
Definition hostJsonMatchesVersion (t : SlotTreeItemBase) : Prop :=
  match _cachedHostJson t with
  | None => True
  | Some h =>
      exists data v, _cachedVersion t = Some v /\ h = parseHostJson data v
  end.

(** Two children, when both exist, are different objects. *)
Definition apart (a b : option AzExtTreeItem) : Prop :=
  match a, b with
  | Some x, Some y => itemId x <> itemId y
  | _, _ => True
  end.

(** The lazy children were constructed after the three cheap ones. *)
Definition younger (item : option AzExtTreeItem) : Prop :=
  match item with Some i => 3 <= itemId i | None => True end.

Definition distinctChildren (m : Machine) : Prop :=
  3 <= allocated m
  /\ younger (deploymentsNode (this m))
  /\ younger (_functionsTreeItem (this m))
  /\ younger (_proxiesTreeItem (this m))
  /\ apart (deploymentsNode (this m)) (_functionsTreeItem (this m))
  /\ apart (deploymentsNode (this m)) (_proxiesTreeItem (this m))
  /\ apart (_functionsTreeItem (this m)) (_proxiesTreeItem (this m)).

End MoreNotions.

(** A site whose configuration can be fetched but whose functions child
    cannot be created. *)
Definition factoryDownClient : @SiteClient sampleSiteEnv :=
  {| initialState := Some "Running";
     getState := fun _ => Ok (Some "Running");
     listApplicationSettings := fun _ =>
       Ok {| properties := Some {[ "WEBSITE_RUN_FROM_PACKAGE" := "1" ]} |};
     getKuduClient := fun _ => Ok (@Build_KuduClient sampleSiteEnv (fun _ => Ok None));
     getAppServicePlan := fun _ => Ok None;
     getSiteConfig := fun _ => Ok "config";
     getSourceControl := fun _ => Ok "scm";
     createFunctionsTreeItem := fun _ => Throw "ETIMEDOUT";
     createProxiesTreeItem := fun _ => Ok tt;
     deleteSite := fun _ => Ok tt |}.

(** The children of the sample site after a first load. *)
Definition sampleChildren : list (@AzExtTreeItem sampleSiteEnv) :=
  [RemoteFunctionsTreeItem 4; AppSettingsTreeItem 0; SiteFilesTreeItem 1;
   LogFilesTreeItem 2; @DeploymentsTreeItem sampleSiteEnv 3 "config" "scm";
   ProxiesTreeItem 5].

(** * Properties *)

(** ** Strings *)

Lemma string_app_nil_l (t : string) : "" +:+ t = t.
Proof. reflexivity. Qed.

Lemma string_app_cons (c : ascii) (s t : string) : String c s +:+ t = String c (s +:+ t).
Proof. reflexivity. Qed.

Lemma string_app_assoc (a b c : string) : (a +:+ b) +:+ c = a +:+ (b +:+ c).
Proof.
  induction a as [|x a IH]; [done|].
  by rewrite !string_app_cons, IH.
Qed.

Lemma string_app_empty_r (a : string) : a +:+ "" = a.
Proof.
  induction a as [|x a IH]; [done|].
  by rewrite string_app_cons, IH.
Qed.

Lemma startsWith_app (x t : string) : startsWith (x +:+ t) x = true.
Proof.
  induction x as [|a x IH]; [done|].
  rewrite string_app_cons. simpl. by rewrite Ascii.eqb_refl.
Qed.

Lemma startsWith_inv (s x : string) :
  startsWith s x = true -> exists t, s = x +:+ t.
Proof.
  revert s. induction x as [|a x IH]; intros s Hs.
  - by exists s.
  - destruct s as [|b s]; [done|]. simpl in Hs.
    destruct (Ascii.eqb a b) eqn:Hab; [|done].
    apply Ascii.eqb_eq in Hab as ->.
    destruct (IH _ Hs) as [t ->]. by exists t.
Qed.

Lemma includes_unfold (s x : string) :
  includes s x =
  startsWith s x || match s with EmptyString => false | String _ s' => includes s' x end.
Proof. by destruct s. Qed.

(** [includes] is the substring test. *)
Lemma includes_iff (s x : string) :
  includes s x = true <-> exists a b, s = a +:+ x +:+ b.
Proof.
  split.
  - induction s as [|c s IH]; rewrite includes_unfold; intros Hs.
    + rewrite orb_false_r in Hs. destruct (startsWith_inv _ _ Hs) as [t Ht].
      by exists "", t.
    + apply orb_true_iff in Hs as [Hs|Hs].
      * destruct (startsWith_inv _ _ Hs) as [t Ht]. by exists "", t.
      * destruct (IH Hs) as (a & b & ->). by exists (String c a), b.
  - intros (a & b & ->). induction a as [|c a IH]; rewrite includes_unfold.
    + rewrite string_app_nil_l. by rewrite startsWith_app.
    + rewrite string_app_cons, IH. apply orb_true_r.
Qed.

Lemma includes_app_l (s t x : string) :
  includes s x = true -> includes (s +:+ t) x = true.
Proof.
  rewrite !includes_iff. intros (a & b & ->). exists a, (b +:+ t).
  by rewrite !string_app_assoc.
Qed.

Lemma includes_appended (s sep x : string) : includes (s +:+ sep +:+ x) x = true.
Proof.
  apply includes_iff. exists (s +:+ sep), "".
  by rewrite string_app_empty_r, string_app_assoc.
Qed.

Lemma includes_self (x : string) : includes x x = true.
Proof. apply includes_iff. exists "", "". by rewrite string_app_nil_l, string_app_empty_r. Qed.

Lemma truthy_Some_false (s : string) : truthy (Some s) = false -> s = "".
Proof. by destruct s. Qed.

Example includes_substring : includes "node_modules/.venv" ".venv" = true.
Proof. reflexivity. Qed.

Example includes_everything_has_empty : includes ".venv" "" = true.
Proof. reflexivity. Qed.

Example toLowerCase_mixed : toLowerCase "DyNaMiC" = "dynamic".
Proof. reflexivity. Qed.

(** ** Ignore files *)

Section PythonInitProperties.
Context `{InitEnv}.

Lemma mergeLines_grows lines c w :
  forall x, includes c x = true -> includes (mergeLines lines (c, w)).1 x = true.
Proof.
  revert c w. induction lines as [|line rest IH]; intros c w x Hx; simpl; [done|].
  destruct (includes c line); simpl; apply IH; [done|].
  by apply includes_app_l.
Qed.

(** After the loop every requested line occurs in the contents. *)
Lemma mergeLines_includes lines c w :
  Forall (fun line => includes (mergeLines lines (c, w)).1 line = true) lines.
Proof.
  revert c w. induction lines as [|line rest IH]; intros c w; [constructor|].
  constructor; [|simpl; destruct (includes c line); apply IH].
  simpl. destruct (includes c line) eqn:Hc; simpl; apply mergeLines_grows; [done|].
  apply includes_appended.
Qed.

(** When every line already occurs, the loop changes nothing. *)
Lemma mergeLines_fixed lines c w :
  Forall (fun line => includes c line = true) lines -> mergeLines lines (c, w) = (c, w).
Proof.
  induction 1 as [|line rest Hline _ IH]; simpl; [done|]. by rewrite Hline.
Qed.

Lemma pathExists_writeFile p data d : pathExists p (writeFile p data d) = true.
Proof.
  unfold pathExists, writeFile; simpl. apply bool_decide_eq_true.
  rewrite lookup_insert_eq. by eexists.
Qed.

Lemma readFile_writeFile p data d : readFile p (writeFile p data d) = data.
Proof. unfold readFile, writeFile; simpl. by rewrite lookup_insert_eq. Qed.

Lemma ensureGitIgnoreContents_again projectPath lines d :
  ensureGitIgnoreContents projectPath lines (ensureGitIgnoreContents projectPath lines d)
  = ensureGitIgnoreContents projectPath lines d.
Proof.
  unfold ensureGitIgnoreContents at 2 3.
  set (p := path_join projectPath gitignoreFileName).
  destruct (pathExists p d) eqn:Hex.
  - pose proof (mergeLines_includes lines (readFile p d) false) as Hall.
    destruct (mergeLines lines (readFile p d, false)) as [c' w] eqn:Hm. simpl in Hall.
    destruct w.
    + unfold ensureGitIgnoreContents. fold p.
      rewrite pathExists_writeFile, readFile_writeFile.
      by rewrite (mergeLines_fixed _ _ _ Hall).
    + unfold ensureGitIgnoreContents. fold p. by rewrite Hex, Hm.
  - unfold ensureGitIgnoreContents. fold p. by rewrite Hex.
Qed.

(** The scenario of the specification: the ignore file holds [foo] and [bar];
    merging [bar] and [baz] appends [baz] only. *)
Example merge_appends_missing_line_only :
  mergeLines (H := sampleInitEnv) ["bar"; "baz"] ("foo" +:+ lineFeed +:+ "bar", false)
  = ("foo" +:+ lineFeed +:+ "bar" +:+ lineFeed +:+ "baz", true).
Proof. reflexivity. Qed.

End PythonInitProperties.

Lemma includes_in_empty (x : string) : includes "" x = true -> x = "".
Proof. by destruct x. Qed.

Section FallibleFileProperties.
Context `{InitEnv} `{FileFaults}.

Lemma fse_readFile_Ok p d c : fse_readFile p d = Ok c -> c = readFile p d.
Proof. unfold fse_readFile. destruct (readFault p d); [done|]. by intros [= <-]. Qed.

Lemma fse_writeFile_Ok p data d u d' :
  fse_writeFile p data d = (Ok u, d') -> d' = writeFile p data d.
Proof.
  unfold fse_writeFile. destruct (writeFault p data d) as [[e remains]|]; [done|].
  by intros [= <- <-].
Qed.

(** When it resolves, the awaited function has done what
    [ensureGitIgnoreContents] describes. *)
Lemma ensureGitIgnoreContentsAsync_Ok projectPath lines d u d' :
  ensureGitIgnoreContentsAsync projectPath lines d = (Ok u, d') ->
  d' = ensureGitIgnoreContents projectPath lines d.
Proof.
  unfold ensureGitIgnoreContentsAsync, ensureGitIgnoreContents.
  set (p := path_join projectPath gitignoreFileName).
  destruct (pathExists p d); [|by intros [= <- <-]].
  destruct (fse_readFile p d) as [c|e] eqn:Hread; [|done].
  apply fse_readFile_Ok in Hread as ->.
  destruct (mergeLines lines (readFile p d, false)) as [c' w].
  destruct w; [apply fse_writeFile_Ok|by intros [= <- <-]].
Qed.

Lemma pathExists_files p d : pathExists p d = bool_decide (is_Some (files d !! p)).
Proof. done. Qed.

Lemma funcIgnoreContentsFor_includes venvName existing :
  includes (funcIgnoreContentsFor venvName existing) venvName = true.
Proof.
  destruct existing as [[|a old]|]; cbn -[includes String.append];
    try apply includes_self.
  destruct (includes (String a old) venvName) eqn:Hi; [done|]. apply includes_appended.
Qed.

(** The outcome of [ensureVenvInFuncIgnore] in full. *)
Lemma ensureVenvInFuncIgnore_outcome projectPath venvName d :
  let funcIgnorePath := path_join projectPath ".funcignore" in
  let written := funcIgnoreContentsFor venvName (files d !! funcIgnorePath) in
  ensureVenvInFuncIgnore projectPath venvName d
  = match (if pathExists funcIgnorePath d then readFault funcIgnorePath d else None) with
    | Some e => (Throw e, d)
    | None =>
        match writeFault funcIgnorePath written d with
        | Some (e, remains) => (Throw e, remains)
        | None => (Ok tt, writeFile funcIgnorePath written d)
        end
    end.
Proof.
  intros p written. subst written. unfold ensureVenvInFuncIgnore, fse_readFile. fold p.
  rewrite pathExists_files. unfold readFile.
  destruct (files d !! p) as [old|]; cbn -[includes String.append]; [|done].
  destruct (readFault p d); [done|].
  destruct old as [|a old]; cbn -[includes String.append]; [done|].
  by destruct (includes (String a old) venvName); cbn -[includes String.append].
Qed.

Lemma ensureVenvInFuncIgnore_Ok projectPath venvName d u d' :
  ensureVenvInFuncIgnore projectPath venvName d = (Ok u, d') ->
  d' = writeFile (path_join projectPath ".funcignore")
         (funcIgnoreContentsFor venvName (files d !! path_join projectPath ".funcignore")) d.
Proof.
  rewrite ensureVenvInFuncIgnore_outcome.
  destruct (if pathExists _ d then _ else _); [done|].
  destruct (writeFault _ _ d) as [[e remains]|]; [done|]. by intros [= <- <-].
Qed.

Lemma funcIgnoreContentsFor_fixed venvName existing :
  funcIgnoreContentsFor venvName (Some (funcIgnoreContentsFor venvName existing))
  = funcIgnoreContentsFor venvName existing.
Proof.
  pose proof (funcIgnoreContentsFor_includes venvName existing) as Hinc.
  destruct (funcIgnoreContentsFor venvName existing) as [|a c] eqn:Hc;
    cbn -[includes String.append].
  - by apply includes_in_empty in Hinc.
  - by rewrite Hinc.
Qed.

(** C1 (amended). Both ignore-file merges are idempotent on the file
    content, and only [ensureGitIgnoreContents] refrains from writing. A
    second [ensureGitIgnoreContents] with the same inputs leaves the whole
    disk as the first left it, and as an awaited call it leaves the disk
    alone even when its read is refused: it never calls [writeFile]. A second
    [ensureVenvInFuncIgnore], when both runs resolve, leaves every file with
    the content it had after the first run, but it does call [writeFile]
    again, with the content that [.funcignore] already has. *)
Theorem ignore_merges_idempotent (projectPath venvName : string) (lines : list string)
    (d d1 d2 : Disk) :
  ensureGitIgnoreContents projectPath lines (ensureGitIgnoreContents projectPath lines d)
  = ensureGitIgnoreContents projectPath lines d
  /\ (ensureGitIgnoreContentsAsync projectPath lines d = (Ok tt, d1) ->
      (ensureGitIgnoreContentsAsync projectPath lines d1).2 = d1)
  /\ (ensureVenvInFuncIgnore projectPath venvName d = (Ok tt, d1) ->
      ensureVenvInFuncIgnore projectPath venvName d1 = (Ok tt, d2) ->
      files d2 = files d1
      /\ exists content,
           files d1 !! path_join projectPath ".funcignore" = Some content
           /\ journal d2 = (path_join projectPath ".funcignore", content) :: journal d1).
Proof.
  split; [apply ensureGitIgnoreContents_again|]. split.
  - intros H1. apply ensureGitIgnoreContentsAsync_Ok in H1.
    pose proof (ensureGitIgnoreContents_again projectPath lines d) as Hagain.
    rewrite <- H1 in Hagain.
    destruct (ensureGitIgnoreContentsAsync projectPath lines d1) as [[u|e] d'] eqn:H2.
    + apply ensureGitIgnoreContentsAsync_Ok in H2. simpl. congruence.
    + revert H2. unfold ensureGitIgnoreContentsAsync, ensureGitIgnoreContents in *.
      set (p := path_join projectPath gitignoreFileName) in *.
      destruct (pathExists p d1); [|by intros [= _ <-]].
      unfold fse_readFile. destruct (readFault p d1); [by intros [= _ <-]|].
      destruct (mergeLines lines (readFile p d1, false)) as [c w].
      destruct w; [|by intros [= _ <-]].
      exfalso. apply (f_equal journal) in Hagain. simpl in Hagain.
      apply (f_equal length) in Hagain. simpl in Hagain. lia.
  - intros H1 H2. apply ensureVenvInFuncIgnore_Ok in H1, H2.
    set (p := path_join projectPath ".funcignore") in *.
    assert (files d1 !! p = Some (funcIgnoreContentsFor venvName (files d !! p))) as Hd1.
    { rewrite H1. simpl. apply lookup_insert_eq. }
    rewrite Hd1, funcIgnoreContentsFor_fixed in H2. split.
    + rewrite H2, H1. simpl. by rewrite insert_insert_eq.
    + eexists. split; [exact Hd1|]. by rewrite H2.
Qed.

End FallibleFileProperties.


(** ** Task descriptors *)

Section TaskProperties.
Context `{InitEnv}.

(** C4 (amended). [getTasks] always puts a host-start task first. That task
    depends on the extension-install task name whenever extension install is
    required, with or without a venv; else on [pipInstall] when a venv was
    detected; else on nothing. With a venv and extension install required the
    list goes on with an extension-install task that depends on [pipInstall],
    then the [pipInstall] task, which depends on nothing: the chain runs
    pipInstall, extension install, host start. With a venv only, it is
    pipInstall, host start. Without a venv there is exactly one task. The
    [pipInstall] task is a shell task with one command per platform. *)
Theorem getTasks_dependency_chain (requiresFuncExtensionsInstall : bool)
    (_venvName : option string) :
  getTasks requiresFuncExtensionsInstall _venvName =
    match requiresFuncExtensionsInstall, truthy _venvName with
    | true, true => [hostStartTask (Some extInstallTaskName); extInstallTask; pipInstallTask]
    | false, true => [hostStartTask (Some pipInstallLabel); pipInstallTask]
    | true, false => [hostStartTask (Some extInstallTaskName)]
    | false, false => [hostStartTask None]
    end
  /\ (forall dep, command (hostStartTask dep) = Some hostStartCommand
                  /\ dependsOn (hostStartTask dep) = dep)
  /\ command extInstallTask = Some extInstallCommand
  /\ dependsOn extInstallTask = Some "pipInstall"
  /\ label pipInstallTask = Some "pipInstall"
  /\ type pipInstallTask = "shell"
  /\ dependsOn pipInstallTask = None
  /\ osx pipInstallTask = Some {| shell_command := getPipInstallCommand MacOS |}
  /\ windows pipInstallTask = Some {| shell_command := getPipInstallCommand Windows |}
  /\ linux pipInstallTask = Some {| shell_command := getPipInstallCommand Linux |}.
Proof.
  split; [|by repeat split].
  unfold getTasks. by destruct requiresFuncExtensionsInstall, (truthy _venvName).
Qed.

End TaskProperties.

(** ** The remote slot node *)

Ltac unfold_node :=
  unfold perform, settle, refreshImpl, getHostJson, getVersion, getApplicationSettings,
    getIsConsumption, loadMoreChildrenImpl, isReadOnly, deleteTreeItemImpl,
    mbind, mret, M_bind, M_ret, read, tryCatch, await, update, new;
  simpl.

Ltac node_cases := unfold_node; repeat case_match; simplify_eq; simpl in *.

Lemma fetches_cons method op ev tr :
  fetches method op (ev :: tr) =
  (if decide (by_method ev = method /\ remote ev = op) then 1 else 0) + fetches method op tr.
Proof. unfold fetches. rewrite filter_cons. by case_decide. Qed.

Lemma successes_cons op ev tr :
  successes op (ev :: tr) =
  (if decide (remote ev = op /\ resolved ev = true) then 1 else 0) + successes op tr.
Proof. unfold successes. rewrite filter_cons. by case_decide. Qed.

#[global] Opaque fetches successes.

Ltac count_events :=
  repeat match goal with
         | Heq : ?field (this ?m) = _ |- context [?field (this ?m)] => rewrite Heq
         end;
  rewrite ?fetches_cons, ?successes_cons; simpl;
  repeat case_decide; simpl; try lia; try naive_solver.

Section CachePattern.
Context `{SiteEnv}.
Variable client : SiteClient.

(** A cache field, the outcome that shows its value, and a count of the
    fetches that fill it. *)
Context {A : Type}.
Variable cache : SlotTreeItemBase -> option A.
Variable shown : Outcome -> option A.
Variable fetched : list Event -> nat.

(** No call but [refresh] empties the cache. *)
Hypothesis cache_kept : forall c m a,
  isRefresh c = false -> cache (this m) = Some a ->
  cache (this (perform client c m).2) = Some a.

(** A value handed back is the one the cache holds afterwards. *)
Hypothesis shown_cached : forall c m a,
  shown (perform client c m).1 = Some a -> cache (this (perform client c m).2) = Some a.

(** A fetch is paid for by the cache going from empty to filled. *)
Hypothesis fetch_fills : forall c m,
  isRefresh c = false ->
  fetched (trace (perform client c m).2) + filled (cache (this m))
  <= fetched (trace m) + filled (cache (this (perform client c m).2)).

Lemma run_cons c cs m :
  run client (c :: cs) m =
  ((perform client c m).1 :: (run client cs (perform client c m).2).1,
   (run client cs (perform client c m).2).2).
Proof.
  simpl. destruct (perform client c m) as [o m1]. simpl.
  by destruct (run client cs m1).
Qed.







End CachePattern.

Section SlotProperties.
Context `{SiteEnv}.
Variable client : SiteClient.

(** *** What each call does to the caches *)












(** *** Invalidation *)

Lemma refreshImpl_empties m : allEmpty (refreshImpl client m).2.
Proof. unfold allEmpty. node_cases; done. Qed.

Lemma perform_stays_empty c m :
  isAccessor c = false -> allEmpty m -> allEmpty (perform client c m).2.
Proof.
  unfold allEmpty. intros Hc (Hv & Hh & Hi).
  destruct c; try done; node_cases; done.
Qed.

Lemma run_stays_empty cs m :
  forallb (fun c => negb (isAccessor c)) cs = true ->
  allEmpty m -> allEmpty (run client cs m).2.
Proof.
  revert m. induction cs as [|c cs IH]; intros m Hcs Hm; [done|].
  apply andb_true_iff in Hcs as [Hc Hcs]. apply negb_true_iff in Hc.
  rewrite run_cons. simpl. apply IH; [done|]. by apply perform_stays_empty.
Qed.

(** A cache is only ever filled by a fetch. *)
Lemma version_fill_fetches c m :
  fetches MGetVersion OpListApplicationSettings (trace m)
  + filled (_cachedVersion (this (perform client c m).2))
  <= fetches MGetVersion OpListApplicationSettings (trace (perform client c m).2)
     + filled (_cachedVersion (this m)).
Proof. destruct c; node_cases; count_events. Qed.

Lemma hostJson_fill_fetches c m :
  fetches MGetHostJson OpGetKuduClient (trace m)
  + filled (_cachedHostJson (this (perform client c m).2))
  <= fetches MGetHostJson OpGetKuduClient (trace (perform client c m).2)
     + filled (_cachedHostJson (this m)).
Proof. destruct c; node_cases; count_events. Qed.

Lemma isConsumption_fill_fetches c m :
  fetches MGetIsConsumption OpGetAppServicePlan (trace m)
  + filled (_cachedIsConsumption (this (perform client c m).2))
  <= fetches MGetIsConsumption OpGetAppServicePlan (trace (perform client c m).2)
     + filled (_cachedIsConsumption (this m)).
Proof. destruct c; node_cases; count_events. Qed.

Lemma run_fill_fetches {A} (cache : SlotTreeItemBase -> option A) (fetched : list Event -> nat) :
  (forall c m, fetched (trace m) + filled (cache (this (perform client c m).2))
               <= fetched (trace (perform client c m).2) + filled (cache (this m))) ->
  forall cs m, fetched (trace m) + filled (cache (this (run client cs m).2))
               <= fetched (trace (run client cs m).2) + filled (cache (this m)).
Proof.
  intros Hstep cs. induction cs as [|c cs IH]; intros m; [simpl; lia|].
  rewrite run_cons. simpl. specialize (IH (perform client c m).2).
  specialize (Hstep c m). lia.
Qed.

(** C3. [refresh] empties the three caches in one go. The first accessor
    called afterwards, whichever of the three it is, issues its remote fetch
    before it answers; and whatever calls are made after the [refresh], a
    later call of an accessor never answers with a value from before the
    [refresh]: a fetch of that accessor has been issued since. *)
Theorem refresh_forces_fresh_fetch (m : Machine) :
  let m0 := (refreshImpl client m).2 in
  (_cachedVersion (this m0) = None
   /\ _cachedHostJson (this m0) = None
   /\ _cachedIsConsumption (this m0) = None)
  /\ (forall calls, forallb (fun c => negb (isAccessor c)) calls = true ->
       let m1 := (run client calls m0).2 in
       trace (getVersion client m1).2
       = {| by_method := MGetVersion; remote := OpListApplicationSettings;
            resolved := isOk (listApplicationSettings client (length (trace m1))) |}
           :: trace m1
       /\ (exists later,
             trace (getHostJson client m1).2
             = later ++ {| by_method := MGetHostJson; remote := OpGetKuduClient;
                           resolved := isOk (getKuduClient client (length (trace m1))) |}
                        :: trace m1)
       /\ trace (getIsConsumption client m1).2
          = {| by_method := MGetIsConsumption; remote := OpGetAppServicePlan;
               resolved := isOk (getAppServicePlan client (length (trace m1))) |}
              :: trace m1)
  /\ (forall calls,
       let m1 := (run client calls m0).2 in
       fetches MGetVersion OpListApplicationSettings (trace m0) + 1
         <= fetches MGetVersion OpListApplicationSettings (trace (getVersion client m1).2)
       /\ fetches MGetHostJson OpGetKuduClient (trace m0) + 1
         <= fetches MGetHostJson OpGetKuduClient (trace (getHostJson client m1).2)
       /\ fetches MGetIsConsumption OpGetAppServicePlan (trace m0) + 1
         <= fetches MGetIsConsumption OpGetAppServicePlan
              (trace (getIsConsumption client m1).2)).
Proof.
  intros m0. pose proof (refreshImpl_empties m) as Hempty. fold m0 in Hempty.
  split; [exact Hempty|]. split.
  - intros calls Hcalls m1.
    destruct (run_stays_empty calls m0 Hcalls Hempty) as (Hv & Hh & Hi). fold m1 in Hv, Hh, Hi.
    clearbody m1. clear - Hv Hh Hi. repeat split.
    + node_cases; done.
    + node_cases; try congruence; first [by eexists [_; _] | by eexists [_]].
    + node_cases; done.
  - intros calls m1. destruct Hempty as (Hv & Hh & Hi).
    pose proof (run_fill_fetches _cachedVersion _ version_fill_fetches
                  (calls ++ [CallGetVersion]) m0) as Bv.
    pose proof (run_fill_fetches _cachedHostJson _ hostJson_fill_fetches
                  (calls ++ [CallGetHostJson]) m0) as Bh.
    pose proof (run_fill_fetches _cachedIsConsumption _ isConsumption_fill_fetches
                  (calls ++ [CallGetIsConsumption]) m0) as Bi.
    rewrite Hv in Bv. rewrite Hh in Bh. rewrite Hi in Bi.
    assert (forall c, (run client (calls ++ [c]) m0).2 = (perform client c m1).2) as Hlast.
    { intros c. subst m1. generalize m0. clear. induction calls as [|c' cs IH]; intros m.
      - simpl. by destruct (perform client c m).
      - rewrite <- app_comm_cons, !run_cons. simpl. apply IH. }
    rewrite Hlast in Bv, Bh, Bi. clear Hlast.
    repeat split.
    + revert Bv. clearbody m1. clear. node_cases; count_events.
    + revert Bh. clearbody m1. clear. node_cases; count_events.
    + revert Bi. clearbody m1. clear. node_cases; count_events.
Qed.

(** *** The accessors one by one *)

(** C8. [refreshImpl] never rejects. Whatever [getState] answers, the call
    completes; the three caches are emptied; the state is the one fetched, or
    ["Unknown"] when the fetch failed. *)
Theorem refreshImpl_absorbs_failure (m : Machine) :
  (refreshImpl client m).1 = Ok tt
  /\ _state (this (refreshImpl client m).2)
     = match getState client (length (trace m)) with
       | Ok state => state
       | Throw _ => Some "Unknown"
       end
  /\ _cachedVersion (this (refreshImpl client m).2) = None
  /\ _cachedHostJson (this (refreshImpl client m).2) = None
  /\ _cachedIsConsumption (this (refreshImpl client m).2) = None.
Proof. node_cases; done. Qed.

(** C6. [getVersion] always answers, and caches its answer. With an empty
    cache the answer is [latestGAVersion] when the settings fetch fails, when
    the setting is absent and when it does not parse; it is the parsed version
    otherwise. *)
Theorem getVersion_falls_back (m : Machine) :
  exists v m',
    getVersion client m = (Ok v, m')
    /\ _cachedVersion (this m') = Some v
    /\ v = match _cachedVersion (this m) with
           | Some cached => cached
           | None =>
               match listApplicationSettings client (length (trace m)) with
               | Throw _ => latestGAVersion
               | Ok appSettings =>
                   match properties appSettings
                         ≫= (fun p => p !! "FUNCTIONS_EXTENSION_VERSION") with
                   | None => latestGAVersion
                   | Some setting =>
                       match parseVersion setting with
                       | None => latestGAVersion
                       | Some parsed => parsed
                       end
                   end
               end
           end.
Proof.
  unfold_node. destruct (_cachedVersion (this m)) as [cached|] eqn:Hm; [by eexists _, _|].
  destruct (listApplicationSettings client (length (trace m))) as [[[p|]]|e]; simpl;
    [|by eexists _, _..].
  unfold tryParseFuncVersion, mbind, option_bind.
  destruct (p !! "FUNCTIONS_EXTENSION_VERSION") as [setting|]; simpl; [|by eexists _, _].
  destruct (parseVersion setting); simpl; by eexists _, _.
Qed.

Lemma tier_is_consumption (t : string) :
  negb (truthy (Some t)) || String.eqb (toLowerCase (default "" (Some t))) "dynamic" = true
  <-> t = "" \/ toLowerCase t = "dynamic".
Proof.
  change (default "" (Some t)) with t. rewrite orb_true_iff, String.eqb_eq.
  destruct t as [|c t].
  - split; intros _; by left.
  - change (truthy (Some (String c t))) with true.
    split; (intros [?|?]; [done|by right]).
Qed.

(** C5 (amended). With an empty cache [getIsConsumption] answers [true]
    exactly when the plan fetch fails, or there is no plan, or the plan has no
    SKU, or the SKU has no tier, or the tier is the empty string, or the tier
    in lower case is ["dynamic"]. The answer is cached. *)
Theorem getIsConsumption_cases (m : Machine) :
  _cachedIsConsumption (this m) = None ->
  exists b m',
    getIsConsumption client m = (Ok b, m')
    /\ _cachedIsConsumption (this m') = Some b
    /\ (b = true <->
        match getAppServicePlan client (length (trace m)) with
        | Throw _ => True
        | Ok None => True
        | Ok (Some asp) =>
            match sku asp with
            | None => True
            | Some sku =>
                match tier sku with
                | None => True
                | Some tier => tier = "" \/ toLowerCase tier = "dynamic"
                end
            end
        end).
Proof.
  intros Hempty. unfold_node. rewrite Hempty.
  destruct (getAppServicePlan client (length (trace m))) as [[asp|]|e]; simpl;
    [|by eexists _, _..].
  eexists _, _. split; [done|]. split; [done|]. unfold isConsumptionPlan.
  destruct (sku asp) as [k|]; [|done].
  destruct (tier k) as [t|]; [|done]. apply tier_is_consumption.
Qed.

(** *** Picking a child *)

Lemma pickSwitch_lookupTable t v : pickSwitch t v = childOf t <$> lookupTable v.
Proof.
  unfold pickSwitch, lookupTable, isSettingsMarker, isProxyMarker, isDeploymentMarker,
    isFunctionMarker.
  repeat (match goal with |- context [bool_decide ?P] => destruct (bool_decide P) end; simpl;
          try done).
  destruct v as [s|r]; simpl.
  - by destruct (RegExp_test DeploymentTreeItem_contextValue s).
  - by destruct (matchesAnyPart_functionResources r).
Qed.

Lemma pickTreeItemImpl_pickChild t vs : pickTreeItemImpl t vs = pickChild t vs.
Proof.
  unfold pickChild. induction vs as [|v vs IH]; [done|].
  simpl. rewrite pickSwitch_lookupTable. by destruct (lookupTable v).
Qed.

(** C7. [pickTreeItemImpl] goes through the markers in order and answers with
    the child of the first marker that the lookup table knows. So a list that
    starts with a proxy marker yields the proxies child, whatever follows it,
    a function marker included; and a list none of whose markers is in the
    table yields no match. *)
Theorem pickTreeItemImpl_first_match (t : SlotTreeItemBase)
    (expectedContextValues : list (ContextValue RegExp)) :
  pickTreeItemImpl t expectedContextValues = pickChild t expectedContextValues
  /\ (forall proxyMarker rest,
        lookupTable proxyMarker = Some ProxiesChild ->
        pickTreeItemImpl t (proxyMarker :: rest) = _proxiesTreeItem t)
  /\ (Forall (fun v => lookupTable v = None) expectedContextValues ->
      pickTreeItemImpl t expectedContextValues = None).
Proof.
  split; [apply pickTreeItemImpl_pickChild|]. split.
  - intros v rest Hv. rewrite pickTreeItemImpl_pickChild. unfold pickChild. simpl.
    by rewrite Hv.
  - intros Hall. rewrite pickTreeItemImpl_pickChild. unfold pickChild.
    induction Hall as [|v vs Hv _ IH]; [done|]. simpl. by rewrite Hv.
Qed.

(** *** Children *)

Lemma run_invariant (P : Machine -> Prop) :
  (forall c m, P m -> P (perform client c m).2) ->
  forall cs m, P m -> P (run client cs m).2.
Proof.
  intros Hstep cs. induction cs as [|c cs IH]; intros m Hm; [done|].
  rewrite run_cons. simpl. by apply IH, Hstep.
Qed.

Lemma lazy_children_wait c m :
  isLoadMoreChildren c = false ->
  appSettingsTreeItem (this (perform client c m).2) = appSettingsTreeItem (this m)
  /\ deploymentsNode (this (perform client c m).2) = deploymentsNode (this m)
  /\ _functionsTreeItem (this (perform client c m).2) = _functionsTreeItem (this m)
  /\ _proxiesTreeItem (this (perform client c m).2) = _proxiesTreeItem (this m).
Proof. intros Hc. destruct c; try done; node_cases; done. Qed.

(** C10. As long as [loadMoreChildrenImpl] has not run on a node,
    [pickTreeItemImpl] answers with the app-settings child when the first
    marker that the table knows is a settings marker, and with [undefined] in
    every other case: when that marker stands for the proxies, the
    deployments or the functions child just as when no marker matches. *)
Theorem pickTreeItemImpl_before_load (calls : list Call)
    (expectedContextValues : list (ContextValue RegExp)) :
  forallb (fun c => negb (isLoadMoreChildren c)) calls = true ->
  pickTreeItemImpl (this (run client calls (constructor client)).2) expectedContextValues
  = match head (omap lookupTable expectedContextValues) with
    | Some AppSettingsChild => Some (AppSettingsTreeItem 0)
    | Some ProxiesChild | Some DeploymentsChild | Some FunctionsChild | None => None
    end.
Proof.
  intros Hcalls. rewrite pickTreeItemImpl_pickChild. unfold pickChild.
  assert (appSettingsTreeItem (this (run client calls (constructor client)).2)
          = AppSettingsTreeItem 0
          /\ deploymentsNode (this (run client calls (constructor client)).2) = None
          /\ _functionsTreeItem (this (run client calls (constructor client)).2) = None
          /\ _proxiesTreeItem (this (run client calls (constructor client)).2) = None)
    as (Ha & Hd & Hf & Hp).
  { assert (forall m,
      appSettingsTreeItem (this m) = AppSettingsTreeItem 0 /\ deploymentsNode (this m) = None
      /\ _functionsTreeItem (this m) = None /\ _proxiesTreeItem (this m) = None ->
      appSettingsTreeItem (this (run client calls m).2) = AppSettingsTreeItem 0
      /\ deploymentsNode (this (run client calls m).2) = None
      /\ _functionsTreeItem (this (run client calls m).2) = None
      /\ _proxiesTreeItem (this (run client calls m).2) = None) as Hrun.
    { induction calls as [|c cs IH]; intros m Hm; [done|].
      apply andb_true_iff in Hcalls as [Hc Hcs]. apply negb_true_iff in Hc.
      rewrite run_cons. simpl. apply IH; [done|].
      destruct (lazy_children_wait c m Hc) as (-> & -> & -> & ->). done. }
    by apply Hrun. }
  destruct (head (omap lookupTable expectedContextValues)) as [[]|]; simpl; congruence.
Qed.

Lemma cheap_children_kept c m :
  appSettingsTreeItem (this (perform client c m).2) = appSettingsTreeItem (this m)
  /\ _siteFilesTreeItem (this (perform client c m).2) = _siteFilesTreeItem (this m)
  /\ _logFilesTreeItem (this (perform client c m).2) = _logFilesTreeItem (this m).
Proof. destruct c; node_cases; done. Qed.

Lemma olderThan_mono n n' item : olderThan n item -> n <= n' -> olderThan n' item.
Proof. destruct item; simpl; [lia|done]. Qed.

Lemma perform_wellFormed c m : wellFormed m -> wellFormed (perform client c m).2.
Proof.
  unfold wellFormed. intros (Wa & Ws & Wl & Wd & Wf & Wp).
  destruct c; node_cases; repeat split;
    first [ lia | done | eapply olderThan_mono; [eassumption|lia]
          | match goal with
            | Heq : ?field = _ |- olderThan _ ?field => rewrite Heq; simpl; first [lia|done]
            end ].
Qed.

Lemma functions_created_once c m :
  successes OpCreateFunctionsTreeItem (trace m) <= filled (_functionsTreeItem (this m)) ->
  successes OpCreateFunctionsTreeItem (trace (perform client c m).2)
  <= filled (_functionsTreeItem (this (perform client c m).2)).
Proof. destruct c; node_cases; count_events. Qed.

Lemma proxies_created_once c m :
  successes OpCreateProxiesTreeItem (trace m) <= filled (_proxiesTreeItem (this m)) ->
  successes OpCreateProxiesTreeItem (trace (perform client c m).2)
  <= filled (_proxiesTreeItem (this (perform client c m).2)).
Proof. destruct c; node_cases; count_events. Qed.

Lemma perform_lifelong c m : lifelong m -> lifelong (perform client c m).2.
Proof.
  intros (Ha & Hs & Hl & Hw & Cf & Cp).
  destruct (cheap_children_kept c m) as (Ka & Ks & Kl).
  unfold lifelong. rewrite Ka, Ks, Kl.
  split; [done|]. split; [done|]. split; [done|].
  split; [by apply perform_wellFormed|].
  split; [by apply functions_created_once|by apply proxies_created_once].
Qed.

Lemma constructor_lifelong : lifelong (constructor client).
Proof.
  unfold lifelong, wellFormed, olderThan, constructor. simpl.
  repeat split; try lia; by vm_compute.
Qed.

Lemma functions_kept c m f :
  _functionsTreeItem (this m) = Some f ->
  _functionsTreeItem (this (perform client c m).2) = Some f.
Proof. intros Hf. destruct c; node_cases; congruence. Qed.

Lemma proxies_kept c m p :
  _proxiesTreeItem (this m) = Some p ->
  _proxiesTreeItem (this (perform client c m).2) = Some p.
Proof. intros Hp. destruct c; node_cases; congruence. Qed.

Lemma loadMoreChildrenImpl_result m :
  lifelong m ->
  match loadMoreChildrenImpl client m with
  | (Ok children, m') =>
      exists siteConfig sourceControl,
        getSiteConfig client (length (trace m)) = Ok siteConfig
        /\ getSourceControl client (S (length (trace m))) = Ok sourceControl
        /\ let deployments := DeploymentsTreeItem (allocated m) siteConfig sourceControl in
           let functions :=
             default (RemoteFunctionsTreeItem (S (allocated m))) (_functionsTreeItem (this m)) in
           let proxies :=
             default (ProxiesTreeItem (S (allocated m) + (1 - filled (_functionsTreeItem (this m)))))
                     (_proxiesTreeItem (this m)) in
           children = [functions; AppSettingsTreeItem 0; SiteFilesTreeItem 1;
                       LogFilesTreeItem 2; deployments; proxies]
           /\ deploymentsNode (this m') = Some deployments
           /\ deploymentsNode (this m) <> Some deployments
           /\ _functionsTreeItem (this m') = Some functions
           /\ _proxiesTreeItem (this m') = Some proxies
  | (Throw _, m') =>
      exists failed earlier, trace m' = failed :: earlier /\ resolved failed = false
  end.
Proof.
  unfold lifelong, wellFormed, olderThan.
  intros (Ha & Hs & Hl & (Wa & Ws & Wl & Wd & Wf & Wp) & Cf & Cp).
  unfold_node.
  destruct (getSiteConfig client (length (trace m))) as [siteConfig|e]; simpl;
    [|by eexists _, _].
  destruct (getSourceControl client (S (length (trace m)))) as [sourceControl|e]; simpl;
    [|by eexists _, _].
  assert (deploymentsNode (this m)
          <> Some (DeploymentsTreeItem (allocated m) siteConfig sourceControl)) as Hfresh.
  { intros Hd. rewrite Hd in Wd. simpl in Wd. lia. }
  destruct (_functionsTreeItem (this m)) as [f|] eqn:Hf; simpl.
  - destruct (_proxiesTreeItem (this m)) as [p|] eqn:Hp; simpl.
    + rewrite Ha, Hs, Hl. by eexists _, _.
    + destruct (createProxiesTreeItem client _); simpl; [|by eexists _, _].
      rewrite Ha, Hs, Hl. replace (allocated m + 0) with (allocated m) by lia.
      by eexists _, _.
  - destruct (createFunctionsTreeItem client _); simpl; [|by eexists _, _].
    destruct (_proxiesTreeItem (this m)) as [p|] eqn:Hp; simpl.
    + rewrite Ha, Hs, Hl. by eexists _, _.
    + destruct (createProxiesTreeItem client _); simpl; [|by eexists _, _].
      rewrite Ha, Hs, Hl. replace (allocated m + 1) with (S (allocated m)) by lia.
      by eexists _, _.
Qed.

(** C9. At any moment of a node's life, a call of [loadMoreChildrenImpl] that
    completes has fetched the site configuration and the source control, has
    built a new deployments child from them (an object that was not there
    before) and stored it, has reused the functions and the proxies child
    when they existed and created them otherwise, and hands back the six
    children in the order functions, app settings, site files, log files,
    deployments, proxies. It rejects only when a remote operation it awaited
    failed. Once created, the functions and the proxies child stay the same
    for all later calls, and over the whole life of the node each of them is
    created at most once. *)
Theorem loadMoreChildrenImpl_children (before later : list Call) :
  let m := (run client before (constructor client)).2 in
  match loadMoreChildrenImpl client m with
  | (Ok children, m') =>
      exists siteConfig sourceControl,
        getSiteConfig client (length (trace m)) = Ok siteConfig
        /\ getSourceControl client (S (length (trace m))) = Ok sourceControl
        /\ let deployments := DeploymentsTreeItem (allocated m) siteConfig sourceControl in
           let functions :=
             default (RemoteFunctionsTreeItem (S (allocated m))) (_functionsTreeItem (this m)) in
           let proxies :=
             default (ProxiesTreeItem (S (allocated m) + (1 - filled (_functionsTreeItem (this m)))))
                     (_proxiesTreeItem (this m)) in
           children = [functions; AppSettingsTreeItem 0; SiteFilesTreeItem 1;
                       LogFilesTreeItem 2; deployments; proxies]
           /\ deploymentsNode (this m') = Some deployments
           /\ deploymentsNode (this m) <> Some deployments
           /\ _functionsTreeItem (this m') = Some functions
           /\ _proxiesTreeItem (this m') = Some proxies
           /\ _functionsTreeItem (this (run client later m').2) = Some functions
           /\ _proxiesTreeItem (this (run client later m').2) = Some proxies
  | (Throw _, m') =>
      exists failed earlier, trace m' = failed :: earlier /\ resolved failed = false
  end
  /\ successes OpCreateFunctionsTreeItem (trace (run client later m).2) <= 1
  /\ successes OpCreateProxiesTreeItem (trace (run client later m).2) <= 1.
Proof.
  intros m.
  assert (lifelong m) as Hm.
  { apply (run_invariant lifelong perform_lifelong), constructor_lifelong. }
  split.
  - pose proof (loadMoreChildrenImpl_result m Hm) as Hload.
    destruct (loadMoreChildrenImpl client m) as [[children|e] m']; [|done].
    destruct Hload as (siteConfig & sourceControl & Hc & Hs & Hl & Hd & Hn & Hf & Hp).
    exists siteConfig, sourceControl. repeat split; try done.
    + by apply (run_invariant (fun m => _functionsTreeItem (this m) = Some _)
                  (fun c m => functions_kept c m _)).
    + by apply (run_invariant (fun m => _proxiesTreeItem (this m) = Some _)
                  (fun c m => proxies_kept c m _)).
  - pose proof (run_invariant lifelong perform_lifelong later m Hm)
      as (_ & _ & _ & _ & Cf & Cp).
    split.
    + destruct (_functionsTreeItem _); simpl in Cf; lia.
    + destruct (_proxiesTreeItem _); simpl in Cp; lia.
Qed.

End SlotProperties.

(** ** The statements at sample inputs *)

Lemma ignore_merges_idempotent_sample :
  let merged :=
    @ensureGitIgnoreContentsAsync sampleInitEnv noFaults "proj" sampleLines sampleDisk in
  let once := @ensureVenvInFuncIgnore sampleInitEnv noFaults "proj" ".venv" sampleDisk in
  let twice := @ensureVenvInFuncIgnore sampleInitEnv noFaults "proj" ".venv" once.2 in
  merged.1 = Ok tt /\ once.1 = Ok tt /\ twice.1 = Ok tt
  /\ (@ensureGitIgnoreContentsAsync sampleInitEnv noFaults "proj" sampleLines merged.2).2
     = merged.2
  /\ files twice.2 = files once.2
  /\ exists content,
       files once.2 !! "proj/.funcignore" = Some content
       /\ journal twice.2 = ("proj/.funcignore", content) :: journal once.2.
Proof.
  intros merged once twice.
  split; [reflexivity|]. split; [reflexivity|]. split; [reflexivity|].
  pose proof (@ignore_merges_idempotent sampleInitEnv noFaults "proj" ".venv" sampleLines
                sampleDisk merged.2 merged.2) as (_ & Hgit & _).
  pose proof (@ignore_merges_idempotent sampleInitEnv noFaults "proj" ".venv" sampleLines
                sampleDisk once.2 twice.2) as (_ & _ & Hfunc).
  split; [exact (Hgit eq_refl)|]. exact (Hfunc eq_refl eq_refl).
Defined.

(** The second [ensureVenvInFuncIgnore] writes [.funcignore] again: on a
    project without the file, both runs resolve, the file holds the venv name
    after each, and the second run has called [writeFile] once more. *)
Lemma ensureVenvInFuncIgnore_second_run_writes :
  let once := @ensureVenvInFuncIgnore sampleInitEnv noFaults "proj" ".venv" sampleDisk in
  let twice := @ensureVenvInFuncIgnore sampleInitEnv noFaults "proj" ".venv" once.2 in
  once.1 = Ok tt /\ twice.1 = Ok tt
  /\ files once.2 !! "proj/.funcignore" = Some ".venv"
  /\ files twice.2 !! "proj/.funcignore" = Some ".venv"
  /\ journal once.2 = [("proj/.funcignore", ".venv")]
  /\ journal twice.2 = [("proj/.funcignore", ".venv"); ("proj/.funcignore", ".venv")]
  /\ twice.2 <> once.2
  /\ ~ (forall (projectPath venvName : string) (d d1 d2 : Disk),
          @ensureVenvInFuncIgnore sampleInitEnv noFaults projectPath venvName d = (Ok tt, d1) ->
          @ensureVenvInFuncIgnore sampleInitEnv noFaults projectPath venvName d1 = (Ok tt, d2) ->
          journal d2 = journal d1).
Proof.
  intros once twice.
  split; [reflexivity|]. split; [reflexivity|]. split; [reflexivity|]. split; [reflexivity|].
  split; [reflexivity|]. split; [reflexivity|]. split.
  - intros Hsame. apply (f_equal journal) in Hsame. discriminate Hsame.
  - intros Hnever.
    specialize (Hnever "proj" ".venv" sampleDisk once.2 twice.2 eq_refl eq_refl).
    discriminate Hnever.
Qed.

(** Under a directory that does not exist the write is refused: the promise
    rejects and no file is created. *)
Example ensureVenvInFuncIgnore_missing_directory :
  @ensureVenvInFuncIgnore sampleInitEnv missingDirectoryFaults "gone" ".venv" sampleDisk
  = (Throw "ENOENT", sampleDisk)
  /\ pathExists "gone/.funcignore" sampleDisk = false.
Proof. split; reflexivity. Qed.

(** [executeCore] then rejects with the same error, after both settings were
    pushed and before [.gitignore] is looked at. *)
Example executeCore_missing_directory :
  @executeCore sampleInitEnv missingDirectoryFaults sampleSuperExecuteCore
     sampleGetExistingVenv "gone" sampleStep sampleDisk
  = (Throw "ENOENT",
     {| settings := [ {| key := "scmDoBuildDuringDeployment"; value := BoolSetting true |};
                      {| key := "pythonVenv"; value := StringSetting ".venv" |} ];
        _venvName := Some ".venv"; requiresFuncExtensionsInstall := true |},
     sampleDisk).
Proof. reflexivity. Qed.


Lemma refresh_forces_fresh_fetch_sample :
  forallb (fun c => negb (isAccessor c)) otherCalls = true
  /\ fetches MGetVersion OpListApplicationSettings
       (trace (refreshImpl unreachableClient (constructor unreachableClient)).2) + 1
     <= fetches MGetVersion OpListApplicationSettings
          (trace (getVersion unreachableClient
                    (run unreachableClient otherCalls
                       (refreshImpl unreachableClient (constructor unreachableClient)).2).2).2)
  /\ trace (getIsConsumption unreachableClient
              (run unreachableClient otherCalls
                 (refreshImpl unreachableClient (constructor unreachableClient)).2).2).2
     = {| by_method := MGetIsConsumption; remote := OpGetAppServicePlan;
          resolved :=
            isOk (getAppServicePlan unreachableClient
                    (length (trace (run unreachableClient otherCalls
                                      (refreshImpl unreachableClient
                                         (constructor unreachableClient)).2).2))) |}
         :: trace (run unreachableClient otherCalls
                     (refreshImpl unreachableClient (constructor unreachableClient)).2).2.
Proof.
  destruct (refresh_forces_fresh_fetch unreachableClient (constructor unreachableClient))
    as (_ & Hfirst & Hlater).
  split; [reflexivity|]. split.
  - apply (Hlater otherCalls).
  - apply (Hfirst otherCalls). reflexivity.
Defined.

Lemma getIsConsumption_cases_sample :
  _cachedIsConsumption (this (constructor (sampleClient (Some "Dynamic")))) = None
  /\ exists b m',
       getIsConsumption (sampleClient (Some "Dynamic"))
         (constructor (sampleClient (Some "Dynamic"))) = (Ok b, m')
       /\ _cachedIsConsumption (this m') = Some b
       /\ (b = true <-> "Dynamic" = "" \/ toLowerCase "Dynamic" = "dynamic").
Proof.
  split; [reflexivity|].
  apply (getIsConsumption_cases (sampleClient (Some "Dynamic"))
           (constructor (sampleClient (Some "Dynamic")))).
  reflexivity.
Defined.

Lemma pickTreeItemImpl_first_match_sample :
  lookupTable proxiesMarker = Some ProxiesChild
  /\ lookupTable functionsMarker = Some FunctionsChild
  /\ pickTreeItemImpl loadedNode [proxiesMarker; functionsMarker] = Some (ProxiesTreeItem 5)
  /\ Forall (fun v => lookupTable v = None) [unknownMarker]
  /\ pickTreeItemImpl loadedNode [unknownMarker] = None.
Proof.
  split; [reflexivity|]. split; [reflexivity|]. split.
  - apply (pickTreeItemImpl_first_match loadedNode []). reflexivity.
  - assert (Forall (fun v => lookupTable v = None) [unknownMarker]) as Hnone.
    { constructor; [reflexivity|constructor]. }
    split; [exact Hnone|].
    apply (pickTreeItemImpl_first_match loadedNode [unknownMarker]). exact Hnone.
Defined.

Lemma pickTreeItemImpl_before_load_sample :
  forallb (fun c => negb (isLoadMoreChildren c)) callsBeforeLoad = true
  /\ pickTreeItemImpl
       (this (run (sampleClient None) callsBeforeLoad (constructor (sampleClient None))).2)
       [proxiesMarker; settingsMarker]
     = None.
Proof.
  split; [reflexivity|].
  apply (pickTreeItemImpl_before_load (sampleClient None) callsBeforeLoad
           [proxiesMarker; settingsMarker]).
  reflexivity.
Defined.

(** ** Where the code differs from the specification *)

(** C4. Extension install required and no venv: the one task is the host
    start, and it does depend on something, the extension-install task.
    Extension install required and venv ["env"]: the host start depends on
    the extension-install task, not on [pipInstall], and the [pipInstall]
    task depends on nothing, so that extension install does not come before
    it. *)
Lemma getTasks_chain_counterexample :
  (exists hostStart,
     getTasks (H := sampleInitEnv) true None = [hostStart]
     /\ dependsOn hostStart = Some "func: extensions install"
     /\ dependsOn hostStart <> None)
  /\ (exists hostStart extInstall pipInstall,
        getTasks (H := sampleInitEnv) true (Some "env") = [hostStart; extInstall; pipInstall]
        /\ command hostStart = Some "host start"
        /\ dependsOn hostStart = Some "func: extensions install"
        /\ dependsOn hostStart <> Some "pipInstall"
        /\ command extInstall = Some "extensions install"
        /\ dependsOn extInstall = Some "pipInstall"
        /\ label pipInstall = Some "pipInstall"
        /\ dependsOn pipInstall = None).
Proof.
  split.
  - eexists. split; [reflexivity|]. split; [reflexivity|]. discriminate.
  - eexists _, _, _. split; [reflexivity|]. repeat split; try reflexivity. discriminate.
Qed.

(** C5. A plan whose SKU has the empty string for tier: the tier is there
    and is not ["dynamic"], yet [getIsConsumption] answers [true]. *)
Lemma getIsConsumption_empty_tier_counterexample :
  exists plan planSku t,
    getAppServicePlan (sampleClient (Some "")) 0 = Ok (Some plan)
    /\ sku plan = Some planSku
    /\ tier planSku = Some t
    /\ toLowerCase t <> "dynamic"
    /\ (getIsConsumption (sampleClient (Some "")) (constructor (sampleClient (Some "")))).1
       = Ok true.
Proof.
  eexists _, _, _. split; [reflexivity|]. split; [reflexivity|]. split; [reflexivity|].
  split; [discriminate|reflexivity].
Qed.

(** * Further properties *)

(** ** More on the ignore files *)

Lemma string_length_app (a b : string) :
  String.length (a +:+ b) = String.length a + String.length b.
Proof.
  induction a as [|c a IH]; [done|].
  rewrite string_app_cons. simpl. by rewrite IH.
Qed.

Lemma string_app_inv_empty (a b : string) : a +:+ b = a -> b = "".
Proof.
  intros Hab. apply (f_equal String.length) in Hab. rewrite string_length_app in Hab.
  destruct b; [done|]. simpl in Hab. lia.
Qed.

Lemma includes_empty (s : string) : includes s "" = true.
Proof. apply includes_iff. exists "", s. done. Qed.

Section IgnoreFileEffects.
Context `{InitEnv}.

Lemma appendedLines_app (a b : list string) :
  appendedLines (a ++ b) = appendedLines a +:+ appendedLines b.
Proof.
  induction a as [|l a IH]; [done|].
  simpl. rewrite IH. by rewrite !string_app_assoc.
Qed.

(** The loop appends, in order, those lines that the contents built so far
    do not include. *)
Lemma mergeLines_shape lines c w :
  exists added,
    sublist added lines
    /\ mergeLines lines (c, w) = (c +:+ appendedLines added, w || negb (bool_decide (added = [])))
    /\ Forall (fun line => includes c line = false) added.
Proof.
  revert c w. induction lines as [|line rest IH]; intros c w.
  - exists []. split; [done|]. split; [|done].
    simpl. by rewrite string_app_empty_r, orb_false_r.
  - simpl. destruct (includes c line) eqn:Hc; simpl.
    + destruct (IH c w) as (added & Hsub & Hm & Hnot).
      exists added. split; [by apply sublist_cons|]. done.
    + destruct (IH (c +:+ EOL +:+ line) true) as (added & Hsub & Hm & Hnot).
      exists (line :: added). split; [by apply sublist_skip|]. split.
      * rewrite Hm. simpl. rewrite orb_true_r. by rewrite !string_app_assoc.
      * constructor; [done|]. eapply Forall_impl; [exact Hnot|].
        intros l Hl. simpl in Hl. destruct (includes c l) eqn:Hcl; [|done].
        by rewrite (includes_app_l c (EOL +:+ line) l Hcl) in Hl.
Qed.

Lemma appendedLines_nonempty added :
  Forall (fun line => line <> "") added -> appendedLines added = "" -> added = [].
Proof.
  destruct added as [|l added]; [done|]. intros Hall Happ. exfalso.
  apply Forall_cons in Hall as [Hl _]. simpl in Happ.
  apply (f_equal String.length) in Happ. rewrite !string_length_app in Happ.
  destruct l; [done|]. simpl in Happ. lia.
Qed.





Lemma pathExists_lookup p d : pathExists p d = bool_decide (is_Some (files d !! p)).
Proof. done. Qed.

Lemma not_included_nonempty c line : includes c line = false -> line <> "".
Proof. intros Hc ->. by rewrite includes_empty in Hc. Qed.

Lemma gitignore_merge_shape (projectPath : string) (lines : list string)
    (d : Disk) :
  let gitignorePath := path_join projectPath gitignoreFileName in
  match files d !! gitignorePath with
  | None => ensureGitIgnoreContents projectPath lines d = d
  | Some old =>
      exists added,
        sublist added lines
        /\ Forall (fun line => includes old line = false /\ line <> "") added
        /\ Forall (fun line => includes (old +:+ appendedLines added) line = true) lines
        /\ ensureGitIgnoreContents projectPath lines d
           = if bool_decide (added = []) then d
             else writeFile gitignorePath (old +:+ appendedLines added) d
  end.
Proof.
  intros p. unfold ensureGitIgnoreContents. fold p. rewrite pathExists_lookup.
  unfold readFile. destruct (files d !! p) as [old|] eqn:Hold; simpl; [|done].
  destruct (mergeLines_shape lines old false) as (added & Hsub & Hm & Hnot).
  pose proof (mergeLines_includes lines old false) as Hall. rewrite Hm in *. simpl in Hall.
  exists added. split; [done|]. split.
  { eapply Forall_impl; [exact Hnot|]. intros l Hl. split; [done|].
    exact (not_included_nonempty old l Hl). }
  split; [done|]. by destruct (bool_decide (added = [])).
Qed.



End IgnoreFileEffects.

Section FuncIgnoreEffects.
Context `{InitEnv} `{FileFaults}.

(** X3. [ensureVenvInFuncIgnore] rejects when reading an existing
    [.funcignore] is refused, leaving the disk as it was, and when the write
    is refused, for instance for a missing directory. Otherwise it resolves,
    having written [.funcignore] and no other file: the venv name alone when
    the file was missing or empty, the old content when that already
    included the name, else the old content, a line separator and the name.
    What it hands to [writeFile] always includes the venv name. *)
Theorem ensureVenvInFuncIgnore_effect (projectPath venvName : string) (d : Disk) :
  let funcIgnorePath := path_join projectPath ".funcignore" in
  let written :=
    match files d !! funcIgnorePath with
    | None | Some EmptyString => venvName
    | Some old => if includes old venvName then old else old +:+ EOL +:+ venvName
    end in
  ensureVenvInFuncIgnore projectPath venvName d
  = match (if pathExists funcIgnorePath d then readFault funcIgnorePath d else None) with
    | Some e => (Throw e, d)
    | None =>
        match writeFault funcIgnorePath written d with
        | Some (e, remains) => (Throw e, remains)
        | None => (Ok tt, writeFile funcIgnorePath written d)
        end
    end
  /\ includes written venvName = true.
Proof.
  split.
  - exact (ensureVenvInFuncIgnore_outcome projectPath venvName d).
  - exact (funcIgnoreContentsFor_includes venvName
             (files d !! path_join projectPath ".funcignore")).
Qed.

End FuncIgnoreEffects.

(** ** The step as a whole *)

Section StepProperties.
Context `{InitEnv} `{FileFaults}.
Variable superExecuteCore :
  string -> PythonInitVSCodeStep -> Disk -> Result string unit * PythonInitVSCodeStep * Disk.
Variable getExistingVenv : string -> Disk -> Result string (option string).

Lemma ensureGitIgnoreContents_after projectPath lines d c :
  files (ensureGitIgnoreContents projectPath lines d)
    !! path_join projectPath gitignoreFileName = Some c ->
  Forall (fun line => includes c line = true) lines.
Proof.
  pose proof (gitignore_merge_shape projectPath lines d) as Heff. simpl in Heff.
  destruct (files d !! path_join projectPath gitignoreFileName) as [old|] eqn:Hold.
  - destruct Heff as (added & _ & _ & Hall & ->).
    destruct (bool_decide (added = [])) eqn:Hadded.
    + apply bool_decide_eq_true in Hadded as ->. rewrite Hold. intros [= <-].
      simpl in Hall. by rewrite string_app_empty_r in Hall.
    + simpl. rewrite lookup_insert_eq. by intros [= <-].
  - rewrite Heff, Hold. done.
Qed.

Lemma ensureGitIgnoreContents_keeps projectPath lines d p c x :
  files d !! p = Some c -> includes c x = true ->
  exists c', files (ensureGitIgnoreContents projectPath lines d) !! p = Some c'
             /\ includes c' x = true.
Proof.
  intros Hp Hx.
  pose proof (gitignore_merge_shape projectPath lines d) as Heff. simpl in Heff.
  destruct (files d !! path_join projectPath gitignoreFileName) as [old|] eqn:Hold;
    [|rewrite Heff; by exists c].
  destruct Heff as (added & _ & _ & _ & ->).
  destruct (bool_decide (added = [])); [by exists c|]. simpl.
  destruct (decide (path_join projectPath gitignoreFileName = p)) as [<-|Hne].
  - rewrite lookup_insert_eq. eexists. split; [done|].
    rewrite Hold in Hp. injection Hp as ->. by apply includes_app_l.
  - rewrite lookup_insert_ne by done. by exists c.
Qed.

Lemma gitignoreLinesFor_included venv c :
  Forall (fun line => includes c line = true) (gitignoreLinesFor venv) ->
  includes c ".python_packages" = true
  /\ includes c "__pycache__" = true
  /\ (if truthy venv then includes c (default "" venv) = true else True).
Proof.
  unfold gitignoreLinesFor. destruct (truthy venv); simpl; rewrite !Forall_cons.
  - by intros (? & ? & ? & _).
  - by intros (? & ? & _).
Qed.

Lemma ensureGitIgnoreContentsAsync_resolves projectPath lines d :
  (forall p d0, readFault p d0 = None) -> (forall p c d0, writeFault p c d0 = None) ->
  (ensureGitIgnoreContentsAsync projectPath lines d).1 = Ok tt.
Proof.
  intros Hread Hwrite. unfold ensureGitIgnoreContentsAsync, fse_readFile, fse_writeFile.
  destruct (pathExists _ d); [|done]. rewrite Hread.
  destruct (mergeLines lines _) as [c w]. destruct w; [|done]. by rewrite Hwrite.
Qed.

(** X4. A run of [executeCore] in which the base step and the venv lookup
    resolve. Whether the file operations then succeed or not, the step has
    the [scmDoBuildDuringDeployment] setting added and, exactly when a venv
    was found, the venv setting after it; it remembers the venv; and
    [getTasks] lists the [pipInstall] task, whose commands refer to the venv
    setting, exactly when that setting was added. When [executeCore]
    resolves: with a venv, [.funcignore] exists and includes the venv name;
    and a [.gitignore] that exists includes [.python_packages],
    [__pycache__] and, with a venv, its name. When it rejects, a file
    operation of [ensureVenvInFuncIgnore] or of [ensureGitIgnoreContents] was
    refused, and the error is that of this operation. It resolves whenever no
    file operation is refused. *)
Theorem executeCore_effect (projectPath : string) (step step1 : PythonInitVSCodeStep)
    (d d1 : Disk) (venv : option string) :
  superExecuteCore projectPath step d = (Ok tt, step1, d1) ->
  getExistingVenv projectPath d1 = Ok venv ->
  let '(outcome, step', d') :=
    executeCore superExecuteCore getExistingVenv projectPath step d in
  _venvName step' = venv
  /\ requiresFuncExtensionsInstall step' = requiresFuncExtensionsInstall step1
  /\ settings step'
     = settings step1
       ++ {| key := "scmDoBuildDuringDeployment"; value := BoolSetting true |}
       :: (if truthy venv
           then [{| key := pythonVenvSetting; value := StringSetting (default "" venv) |}]
           else [])
  /\ (pipInstallTask ∈ tasksOf step' <-> truthy venv = true)
  /\ match outcome with
     | Ok _ =>
         (if truthy venv
          then exists c, files d' !! path_join projectPath ".funcignore" = Some c
                         /\ includes c (default "" venv) = true
          else d' = ensureGitIgnoreContents projectPath
                      [".python_packages"; "__pycache__"] d1)
         /\ (forall c, files d' !! path_join projectPath gitignoreFileName = Some c ->
               includes c ".python_packages" = true
               /\ includes c "__pycache__" = true
               /\ (if truthy venv then includes c (default "" venv) = true else True))
     | Throw e =>
         (truthy venv = true
          /\ ensureVenvInFuncIgnore projectPath (default "" venv) d1 = (Throw e, d'))
         \/ (exists d0,
               (if truthy venv
                then ensureVenvInFuncIgnore projectPath (default "" venv) d1 = (Ok tt, d0)
                else d0 = d1)
               /\ ensureGitIgnoreContentsAsync projectPath (gitignoreLinesFor venv) d0
                  = (Throw e, d'))
     end
  /\ ((forall p d0, readFault p d0 = None) -> (forall p c d0, writeFault p c d0 = None) ->
      outcome = Ok tt).
Proof.
  intros Hsuper Hvenv. unfold executeCore. rewrite Hsuper, Hvenv.
  cbn -[includes String.append ensureGitIgnoreContentsAsync ensureVenvInFuncIgnore truthy
        tasksOf gitignoreLinesFor ensureGitIgnoreContents].
  assert (forall s, _venvName s = venv ->
            (pipInstallTask ∈ tasksOf s <-> truthy venv = true)) as Htasks.
  { intros s <-. unfold tasksOf, getTasks. destruct (truthy (_venvName s)) eqn:Hv.
    - split; [done|]. intros _. destruct (requiresFuncExtensionsInstall s); set_solver.
    - split; [|done]. intros Hin. destruct (requiresFuncExtensionsInstall s);
        apply list_elem_of_singleton in Hin; by apply (f_equal label) in Hin. }
  destruct (truthy venv) eqn:Htruthy.
  - destruct (ensureVenvInFuncIgnore projectPath (default "" venv) d1)
      as [[[]|e] d0] eqn:Hvenvfile.
    + destruct (ensureGitIgnoreContentsAsync projectPath (gitignoreLinesFor venv) d0)
        as [[[]|e] d'] eqn:Hgit;
        cbn -[includes String.append ensureGitIgnoreContentsAsync ensureVenvInFuncIgnore
              truthy tasksOf gitignoreLinesFor ensureGitIgnoreContents];
        (split; [done|]); (split; [done|]); (split; [by rewrite <- app_assoc|]);
        (split; [by apply Htasks|]).
      * split; [split|done].
        -- apply ensureGitIgnoreContentsAsync_Ok in Hgit as ->.
           apply ensureVenvInFuncIgnore_Ok in Hvenvfile as ->.
           eapply ensureGitIgnoreContents_keeps; [apply lookup_insert_eq|].
           apply funcIgnoreContentsFor_includes.
        -- intros c Hc. apply ensureGitIgnoreContentsAsync_Ok in Hgit as ->.
           apply ensureGitIgnoreContents_after, gitignoreLinesFor_included in Hc.
           by rewrite Htruthy in Hc.
      * split; [right; by exists d0|].
        intros Hread Hwrite.
        pose proof (ensureGitIgnoreContentsAsync_resolves projectPath
                      (gitignoreLinesFor venv) d0 Hread Hwrite) as Hres.
        by rewrite Hgit in Hres.
    + cbn -[includes String.append ensureGitIgnoreContentsAsync ensureVenvInFuncIgnore
            truthy tasksOf gitignoreLinesFor ensureGitIgnoreContents].
      split; [done|]. split; [done|]. split; [by rewrite <- app_assoc|].
      split; [by apply Htasks|]. split; [by left|].
      intros Hread Hwrite. rewrite ensureVenvInFuncIgnore_outcome in Hvenvfile.
      rewrite Hread, Hwrite in Hvenvfile. by destruct (pathExists _ d1).
  - destruct (ensureGitIgnoreContentsAsync projectPath (gitignoreLinesFor venv) d1)
      as [[[]|e] d'] eqn:Hgit;
      cbn -[includes String.append ensureGitIgnoreContentsAsync ensureVenvInFuncIgnore
            truthy tasksOf gitignoreLinesFor ensureGitIgnoreContents];
      (split; [done|]); (split; [done|]); (split; [done|]);
      (split; [by apply Htasks|]).
    + split; [split|done].
      * apply ensureGitIgnoreContentsAsync_Ok in Hgit as ->.
        unfold gitignoreLinesFor. by rewrite Htruthy.
      * intros c Hc. apply ensureGitIgnoreContentsAsync_Ok in Hgit as ->.
        apply ensureGitIgnoreContents_after, gitignoreLinesFor_included in Hc.
        by rewrite Htruthy in Hc.
    + split; [right; by exists d1|].
      intros Hread Hwrite.
      pose proof (ensureGitIgnoreContentsAsync_resolves projectPath
                    (gitignoreLinesFor venv) d1 Hread Hwrite) as Hres.
      by rewrite Hgit in Hres.
Qed.

End StepProperties.

Section TaskReferences.
Context `{InitEnv}.

(** X5. Every reference to [pipInstall] in the returned tasks resolves:
    provided the extension-install task is not itself named [pipInstall], a
    task that depends on [pipInstall] comes with exactly one task of that
    label in the list, and that task depends on nothing. *)
Theorem getTasks_pipInstall_resolves (requiresExt : bool) (venv : option string)
    (t : TaskDefinition) :
  extInstallTaskName <> pipInstallLabel ->
  t ∈ getTasks requiresExt venv ->
  dependsOn t = Some pipInstallLabel ->
  filter (fun t' => label t' = Some pipInstallLabel) (getTasks requiresExt venv)
  = [pipInstallTask]
  /\ dependsOn pipInstallTask = None.
Proof.
  intros Hne Hin Hdep. split; [|done].
  unfold getTasks in *.
  destruct requiresExt, (truthy venv); simpl in *; try done.
  - apply list_elem_of_singleton in Hin as ->. simpl in Hdep. congruence.
  - apply list_elem_of_singleton in Hin as ->. by simpl in Hdep.
Qed.

End TaskReferences.

(** ** More on the remote slot node *)

Section MoreSlotProperties.
Context `{SiteEnv}.
Variable client : SiteClient.

Lemma description_cases (t : SlotTreeItemBase) :
  description t
  = match _state t with
    | None => None
    | Some s => if decide (s = "" \/ toLowerCase s = "running") then None else Some s
    end.
Proof.
  unfold description. destruct (_state t) as [[|a s]|]; [|  |done].
  { done. }
  change (truthy (Some (String a s))) with true. rewrite andb_true_l.
  change (default "" (Some (String a s))) with (String a s).
  destruct (decide (String a s = "" \/ toLowerCase (String a s) = "running")) as [Hd|Hd];
    destruct (String.eqb_spec (toLowerCase (String a s)) "running") as [He|He]; try done.
  - by destruct Hd.
  - destruct Hd. by right.
Qed.

Lemma refreshImpl_state (m : Machine) :
  _state (this (refreshImpl client m).2)
  = match getState client (length (trace m)) with
    | Ok state => state
    | Throw _ => Some "Unknown"
    end.
Proof. node_cases; done. Qed.

(** X6. The description shown after a refresh: ["Unknown"] when [getState]
    failed, nothing when the site reports no state, an empty state, or
    "running" in any letter case, and the reported state otherwise. *)
Theorem description_after_refresh (m : Machine) :
  description (this (refreshImpl client m).2)
  = match getState client (length (trace m)) with
    | Throw _ => Some "Unknown"
    | Ok None => None
    | Ok (Some s) => if decide (s = "" \/ toLowerCase s = "running") then None else Some s
    end.
Proof.
  rewrite description_cases, refreshImpl_state.
  by destruct (getState client (length (trace m))) as [[s|]|e].
Qed.


Lemma settings_fetch_counted c m :
  fetches MGetApplicationSettings OpListApplicationSettings (trace (perform client c m).2)
  = fetches MGetApplicationSettings OpListApplicationSettings (trace m)
    + (if isGetApplicationSettings c then 1 else 0)
  /\ fetches MIsReadOnly OpListApplicationSettings (trace (perform client c m).2)
     = fetches MIsReadOnly OpListApplicationSettings (trace m)
       + (if isIsReadOnly c then 1 else 0).
Proof. destruct c; node_cases; split; count_events. Qed.

(** X7. [getApplicationSettings] and [isReadOnly] are never served from a
    cache: in any sequence of calls, each of them fetches the application
    settings once per call, whatever the other calls have cached. *)
Theorem settings_fetched_every_time (calls : list Call) (m : Machine) :
  fetches MGetApplicationSettings OpListApplicationSettings (trace (run client calls m).2)
  = fetches MGetApplicationSettings OpListApplicationSettings (trace m)
    + length (filter (fun c => isGetApplicationSettings c = true) calls)
  /\ fetches MIsReadOnly OpListApplicationSettings (trace (run client calls m).2)
     = fetches MIsReadOnly OpListApplicationSettings (trace m)
       + length (filter (fun c => isIsReadOnly c = true) calls).
Proof.
  revert m. induction calls as [|c calls IH]; intros m; [simpl; lia|].
  rewrite (run_cons client). simpl.
  destruct (IH (perform client c m).2) as [-> ->].
  destruct (settings_fetch_counted c m) as [-> ->].
  rewrite !filter_cons.
  destruct (isGetApplicationSettings c), (isIsReadOnly c); simpl;
    repeat case_decide; simpl; try done; lia.
Qed.

(** X8. [isReadOnly] answers what the settings say: when the settings fetch
    fails, both [getApplicationSettings] and [isReadOnly] reject with that
    error; otherwise [isReadOnly] is [true] exactly when one of the keys
    [WEBSITE_RUN_FROM_PACKAGE] and [WEBSITE_RUN_FROM_ZIP] has a non-empty
    value in the settings that [getApplicationSettings] returns. Neither
    call changes a field of the node. *)
Theorem isReadOnly_reads_settings (m : Machine) :
  match (getApplicationSettings client m).1 with
  | Ok appSettings =>
      exists b,
        (isReadOnly client m).1 = Ok b
        /\ (b = true <->
            (exists v, appSettings !! "WEBSITE_RUN_FROM_PACKAGE" = Some v /\ v <> "")
            \/ (exists v, appSettings !! "WEBSITE_RUN_FROM_ZIP" = Some v /\ v <> ""))
  | Throw e =>
      listApplicationSettings client (length (trace m)) = Throw e
      /\ (isReadOnly client m).1 = Throw e
  end
  /\ this (getApplicationSettings client m).2 = this m
  /\ this (isReadOnly client m).2 = this m.
Proof.
  unfold_node.
  destruct (listApplicationSettings client (length (trace m))) as [[[p|]]|e]; simpl;
    [| |done].
  - split; [|done]. eexists. split; [done|].
    destruct (p !! "WEBSITE_RUN_FROM_PACKAGE") as [[|a v]|] eqn:Hp;
      destruct (p !! "WEBSITE_RUN_FROM_ZIP") as [[|b w]|] eqn:Hz; simpl;
      (split;
       [ intros Hb; try discriminate Hb;
         first [ left; eexists; split; [reflexivity|discriminate]
               | right; eexists; split; [reflexivity|discriminate] ]
       | intros [(v0 & Hv & Hn)|(v0 & Hv & Hn)]; simplify_eq; done ]).
  - split; [|done]. eexists. split; [done|]. split; [done|].
    intros [[v [Hv _]]|[v [Hv _]]]; by rewrite lookup_empty in Hv.
Qed.


Lemma perform_frame c m :
  (isRefresh c = false -> _state (this (perform client c m).2) = _state (this m))
  /\ (isRefresh c || isAccessor c = false ->
      _cachedVersion (this (perform client c m).2) = _cachedVersion (this m)
      /\ _cachedHostJson (this (perform client c m).2) = _cachedHostJson (this m)
      /\ _cachedIsConsumption (this (perform client c m).2) = _cachedIsConsumption (this m))
  /\ (isLoadMoreChildren c = false ->
      deploymentsNode (this (perform client c m).2) = deploymentsNode (this m)
      /\ _functionsTreeItem (this (perform client c m).2) = _functionsTreeItem (this m)
      /\ _proxiesTreeItem (this (perform client c m).2) = _proxiesTreeItem (this m)).
Proof. destruct c; node_cases; repeat split; intros; done. Qed.

(** X9. What the calls leave alone. Only [refresh] changes the state of the
    site that the node shows; only [refresh] and the three cached accessors
    change a cache; only [loadMoreChildrenImpl] changes the deployments, the
    functions and the proxies child. In particular a [refresh] keeps the
    children that were loaded, and loading children keeps the caches. *)
Theorem calls_leave_alone (calls : list Call) (m : Machine) :
  (forallb (fun c => negb (isRefresh c)) calls = true ->
   _state (this (run client calls m).2) = _state (this m))
  /\ (forallb (fun c => negb (isRefresh c || isAccessor c)) calls = true ->
      _cachedVersion (this (run client calls m).2) = _cachedVersion (this m)
      /\ _cachedHostJson (this (run client calls m).2) = _cachedHostJson (this m)
      /\ _cachedIsConsumption (this (run client calls m).2) = _cachedIsConsumption (this m))
  /\ (forallb (fun c => negb (isLoadMoreChildren c)) calls = true ->
      deploymentsNode (this (run client calls m).2) = deploymentsNode (this m)
      /\ _functionsTreeItem (this (run client calls m).2) = _functionsTreeItem (this m)
      /\ _proxiesTreeItem (this (run client calls m).2) = _proxiesTreeItem (this m)).
Proof.
  revert m. induction calls as [|c calls IH]; intros m; [done|].
  rewrite (run_cons client). simpl.
  destruct (IH (perform client c m).2) as (IHs & IHc & IHl).
  destruct (perform_frame c m) as (Hs & Hc & Hl).
  split; [|split]; intros Hall;
    apply andb_true_iff in Hall as [Hhead Hall]; apply negb_true_iff in Hhead.
  - by rewrite (IHs Hall), (Hs Hhead).
  - destruct (IHc Hall) as (-> & -> & ->). by destruct (Hc Hhead) as (-> & -> & ->).
  - destruct (IHl Hall) as (-> & -> & ->). by destruct (Hl Hhead) as (-> & -> & ->).
Qed.

(** X10. Which calls can reject. [refresh], the three cached accessors and
    [pickTreeItemImpl] never reject, whatever the remote side does. Each of
    [getApplicationSettings], [loadMoreChildrenImpl], [isReadOnly] and
    [deleteTreeItemImpl] rejects exactly when the last remote operation it
    awaited rejected. *)
Theorem rejects_only_unguarded (c : Call) (m : Machine) :
  if absorbsFailure c then isRejected (perform client c m).1 = false
  else exists last earlier,
         trace (perform client c m).2 = last :: earlier
         /\ isRejected (perform client c m).1 = negb (resolved last).
Proof.
  destruct c; simpl; node_cases; try done; by eexists _, _.
Qed.

Lemma loaded_stays c m :
  is_Some (deploymentsNode (this m)) /\ is_Some (_functionsTreeItem (this m))
  /\ is_Some (_proxiesTreeItem (this m)) ->
  is_Some (deploymentsNode (this (perform client c m).2))
  /\ is_Some (_functionsTreeItem (this (perform client c m).2))
  /\ is_Some (_proxiesTreeItem (this (perform client c m).2)).
Proof.
  intros ([d Hd] & [f Hf] & [p Hp]).
  destruct c; node_cases; repeat split; by eexists.
Qed.

Lemma loadMoreChildrenImpl_loads m children m' :
  loadMoreChildrenImpl client m = (Ok children, m') ->
  exists f d p,
    children = [f; appSettingsTreeItem (this m'); _siteFilesTreeItem (this m');
                _logFilesTreeItem (this m'); d; p]
    /\ deploymentsNode (this m') = Some d
    /\ _functionsTreeItem (this m') = Some f
    /\ _proxiesTreeItem (this m') = Some p.
Proof. node_cases; intros; simplify_eq; by eexists _, _, _. Qed.

(** X11. Once [loadMoreChildrenImpl] has completed, [pickTreeItemImpl] finds
    a child for every list that holds a marker of the table: right after the
    load it is one of the children that the load returned, and after any
    further calls it is still not [undefined]. *)
Theorem pickTreeItemImpl_after_load (m m' : Machine) (children : list AzExtTreeItem)
    (later : list Call) (expectedContextValues : list (ContextValue RegExp)) :
  loadMoreChildrenImpl client m = (Ok children, m') ->
  is_Some (head (omap lookupTable expectedContextValues)) ->
  (exists child, pickTreeItemImpl (this m') expectedContextValues = Some child
                 /\ child ∈ children)
  /\ is_Some (pickTreeItemImpl (this (run client later m').2) expectedContextValues).
Proof.
  intros Hload [c Hc].
  destruct (loadMoreChildrenImpl_loads _ _ _ Hload) as (f & d & p & -> & Hd & Hf & Hp).
  split.
  - rewrite pickTreeItemImpl_pickChild. unfold pickChild. rewrite Hc. simpl.
    destruct c; simpl; rewrite ?Hd, ?Hf, ?Hp; eexists; (split; [done|]); set_solver.
  - assert (is_Some (deploymentsNode (this (run client later m').2))
            /\ is_Some (_functionsTreeItem (this (run client later m').2))
            /\ is_Some (_proxiesTreeItem (this (run client later m').2)))
      as ([d' Hd'] & [f' Hf'] & [p' Hp']).
    { apply (run_invariant client
               (fun m => is_Some (deploymentsNode (this m))
                         /\ is_Some (_functionsTreeItem (this m))
                         /\ is_Some (_proxiesTreeItem (this m)))).
      - intros c0 m0. apply loaded_stays.
      - by rewrite Hd, Hf, Hp. }
    rewrite pickTreeItemImpl_pickChild. unfold pickChild. rewrite Hc. simpl.
    destruct c; simpl; rewrite ?Hd', ?Hf', ?Hp'; by eexists.
Qed.

(** X12. A [loadMoreChildrenImpl] that rejects may have done part of its
    work. When the site configuration or the source control could not be
    fetched the node is as before. When both were fetched and a child could
    not be created, the deployments child has been replaced all the same. In
    no case is an existing functions or proxies child lost. *)
Theorem loadMoreChildrenImpl_rejects_midway (m m' : Machine) (e : Error) :
  loadMoreChildrenImpl client m = (Throw e, m') ->
  match getSiteConfig client (length (trace m)),
        getSourceControl client (S (length (trace m))) with
  | Ok siteConfig, Ok sourceControl =>
      deploymentsNode (this m')
      = Some (DeploymentsTreeItem (allocated m) siteConfig sourceControl)
  | _, _ => this m' = this m
  end
  /\ (forall f, _functionsTreeItem (this m) = Some f -> _functionsTreeItem (this m') = Some f)
  /\ (forall p, _proxiesTreeItem (this m) = Some p -> _proxiesTreeItem (this m') = Some p).
Proof.
  unfold_node.
  destruct (getSiteConfig client (length (trace m))) as [siteConfig|e1]; simpl;
    [|by intros [= <- <-]].
  destruct (getSourceControl client (S (length (trace m)))) as [sourceControl|e2]; simpl;
    [|by intros [= <- <-]].
  destruct (_functionsTreeItem (this m)) as [f|] eqn:Hf; simpl.
  - destruct (_proxiesTreeItem (this m)) as [p|] eqn:Hp; simpl; [done|].
    destruct (createProxiesTreeItem client _); simpl; [done|].
    intros [= <- <-]. simpl. by rewrite Hf.
  - destruct (createFunctionsTreeItem client _); simpl.
    + destruct (_proxiesTreeItem (this m)) as [p|] eqn:Hp; simpl; [done|].
      destruct (createProxiesTreeItem client _); simpl; [done|].
      intros [= <- <-]. simpl. done.
    + intros [= <- <-]. simpl. done.
Qed.


Lemma perform_hostJsonMatchesVersion c m :
  hostJsonMatchesVersion (this m) -> hostJsonMatchesVersion (this (perform client c m).2).
Proof.
  unfold hostJsonMatchesVersion. intros Hm.
  destruct c; node_cases; try done; try (by eexists _, _);
    try destruct Hm as (data & v & Hv & Hh); simplify_eq;
    repeat match goal with
           | H1 : ?x = Some _, H2 : ?x = Some _ |- _ => rewrite H1 in H2; simplify_eq
           | H1 : ?x = Some _, H2 : ?x = None |- _ => rewrite H1 in H2; simplify_eq
           end;
    try (eexists _, _; split; [eassumption|reflexivity]);
    try (eexists _, _; split; reflexivity).
Qed.

(** X13. The cached host.json goes with the cached version. At any moment of
    a node's life a cached host.json is the parse of the host settings under
    the version that is cached at that moment; so [getHostJson] never
    rejects, and what it answers was parsed under the very version that
    [getVersion], called next, reports without a fetch. *)
Theorem hostJson_parsed_under_cached_version (calls : list Call) :
  let m := (run client calls (constructor client)).2 in
  hostJsonMatchesVersion (this m)
  /\ exists h m1 data v,
       getHostJson client m = (Ok h, m1)
       /\ h = parseHostJson data v
       /\ getVersion client m1 = (Ok v, m1).
Proof.
  intros m.
  assert (hostJsonMatchesVersion (this m)) as Hm.
  { apply (run_invariant client (fun m => hostJsonMatchesVersion (this m))
             perform_hostJsonMatchesVersion). by unfold hostJsonMatchesVersion. }
  split; [done|]. clearbody m. unfold hostJsonMatchesVersion in Hm.
  unfold_node. destruct (_cachedHostJson (this m)) as [h|] eqn:Hh.
  - destruct Hm as (data & v & Hv & ->). eexists _, _, data, v. by rewrite Hv.
  - clear Hm. repeat case_match; simplify_eq; simpl in *;
      eexists _, _, _, _; (split; [reflexivity|]); (split; [reflexivity|]); simpl;
      repeat match goal with
             | Heq : _cachedVersion _ = _ |- _ => rewrite Heq
             end;
      reflexivity.
Qed.


Lemma allocated_kept c m :
  isLoadMoreChildren c = false -> allocated (perform client c m).2 = allocated m.
Proof. intros Hc. destruct c; try done; node_cases; done. Qed.

Lemma load_distinctChildren m :
  wellFormed m -> distinctChildren m ->
  distinctChildren (perform client CallLoadMoreChildren m).2.
Proof.
  unfold wellFormed, distinctChildren, olderThan, younger, apart.
  intros (_ & _ & _ & Wd & Wf & Wp) (Ha & Yd & Yf & Yp & Adf & Adp & Afp).
  unfold_node.
  destruct (getSiteConfig client (length (trace m))); simpl; [|done].
  destruct (getSourceControl client (S (length (trace m)))); simpl; [|done].
  destruct (_functionsTreeItem (this m)) as [f|] eqn:Hf; simpl.
  - destruct (_proxiesTreeItem (this m)) as [p|] eqn:Hp; simpl.
    + rewrite Hf, Hp. simpl. repeat split; lia.
    + destruct (createProxiesTreeItem client _); simpl; rewrite ?Hf, ?Hp; simpl;
        repeat split; lia.
  - destruct (createFunctionsTreeItem client _); simpl.
    + destruct (_proxiesTreeItem (this m)) as [p|] eqn:Hp; simpl.
      * rewrite ?Hp. simpl. repeat split; lia.
      * destruct (createProxiesTreeItem client _); simpl; rewrite ?Hp; simpl;
          repeat split; lia.
    + rewrite ?Hf. destruct (_proxiesTreeItem (this m)) as [p|] eqn:Hp; simpl;
        repeat split; lia.
Qed.

Lemma perform_distinctChildren c m :
  wellFormed m -> distinctChildren m -> distinctChildren (perform client c m).2.
Proof.
  intros Hw Hd. destruct (isLoadMoreChildren c) eqn:Hc.
  - destruct c; try done. by apply load_distinctChildren.
  - unfold distinctChildren. rewrite (allocated_kept c m Hc).
    destruct (perform_frame c m) as (_ & _ & Hl). by destruct (Hl Hc) as (-> & -> & ->).
Qed.

(** X14. The six children that [loadMoreChildrenImpl] returns are six
    different objects, at any moment of a node's life. *)
Theorem loaded_children_distinct (calls : list Call) :
  match loadMoreChildrenImpl client (run client calls (constructor client)).2 with
  | (Ok children, _) => length children = 6 /\ NoDup (itemId <$> children)
  | (Throw _, _) => True
  end.
Proof.
  set (m := (run client calls (constructor client)).2).
  assert (lifelong m /\ distinctChildren m) as [Hl Hd].
  { apply (run_invariant client (fun m => lifelong m /\ distinctChildren m)).
    - intros c m0 [Hl0 Hd0]. split; [by apply perform_lifelong|].
      apply perform_distinctChildren; [|done]. by destruct Hl0 as (_ & _ & _ & Hw & _).
    - split; [apply constructor_lifelong|].
      unfold distinctChildren, constructor; simpl. repeat split; lia. }
  pose proof (loadMoreChildrenImpl_result client m Hl) as Hload.
  destruct (loadMoreChildrenImpl client m) as [[children|e] m']; [|done].
  destruct Hload as (siteConfig & sourceControl & _ & _ & -> & _).
  split; [done|].
  destruct Hl as (_ & _ & _ & (_ & _ & _ & Wd & Wf & Wp) & _).
  destruct Hd as (Ha & Yd & Yf & Yp & Adf & Adp & Afp).
  unfold olderThan, younger, apart in *.
  destruct (_functionsTreeItem (this m)) as [f|], (_proxiesTreeItem (this m)) as [p|];
    simpl in *; repeat (apply NoDup_cons; split; [rewrite ?not_elem_of_cons; repeat split; try lia; apply not_elem_of_nil|]);
    apply NoDup_nil_2.
Qed.


(** X15. Picking over two lists of markers joined together: when the first
    list holds a marker of the table, the answer is that of the first list
    alone, even when this answer is [undefined] because the child was not
    loaded and the second list would yield a child; else it is the answer of
    the second list. *)
Theorem pickTreeItemImpl_app (t : SlotTreeItemBase)
    (markers1 markers2 : list (ContextValue RegExp)) :
  pickTreeItemImpl t (markers1 ++ markers2)
  = if bool_decide (Exists (fun v => is_Some (lookupTable v)) markers1)
    then pickTreeItemImpl t markers1
    else pickTreeItemImpl t markers2.
Proof.
  induction markers1 as [|v vs IH].
  - rewrite bool_decide_eq_false_2; [done|]. by intros ?%Exists_nil.
  - simpl. rewrite (pickSwitch_lookupTable t v).
    destruct (lookupTable v) as [c|] eqn:Hv; simpl.
    + rewrite bool_decide_eq_true_2; [done|]. apply Exists_cons_hd. by rewrite Hv.
    + rewrite IH. destruct (bool_decide (Exists _ vs)) eqn:Hvs.
      * apply bool_decide_eq_true in Hvs. rewrite bool_decide_eq_true_2; [done|].
        by apply Exists_cons_tl.
      * apply bool_decide_eq_false in Hvs. rewrite bool_decide_eq_false_2; [done|].
        intros [Hhd|Htl]%Exists_cons; [|done]. rewrite Hv in Hhd. by destruct Hhd.
Qed.

End MoreSlotProperties.

(** ** The further statements at sample inputs *)

Lemma executeCore_effect_sample :
  sampleSuperExecuteCore "proj" sampleStep sampleDisk = (Ok tt, sampleStep, sampleDisk)
  /\ sampleGetExistingVenv "proj" sampleDisk = Ok (Some ".venv")
  /\ (@executeCore sampleInitEnv noFaults sampleSuperExecuteCore sampleGetExistingVenv
        "proj" sampleStep sampleDisk).1.1 = Ok tt
  /\ _venvName (@executeCore sampleInitEnv noFaults sampleSuperExecuteCore
                  sampleGetExistingVenv "proj" sampleStep sampleDisk).1.2
     = Some ".venv"
  /\ (@pipInstallTask sampleInitEnv
      ∈ @tasksOf sampleInitEnv
          (@executeCore sampleInitEnv noFaults sampleSuperExecuteCore sampleGetExistingVenv
             "proj" sampleStep sampleDisk).1.2
      <-> truthy (Some ".venv") = true).
Proof.
  split; [reflexivity|]. split; [reflexivity|].
  pose proof (@executeCore_effect sampleInitEnv noFaults sampleSuperExecuteCore
                sampleGetExistingVenv "proj" sampleStep sampleStep sampleDisk sampleDisk
                (Some ".venv") eq_refl eq_refl) as Heffect.
  destruct (@executeCore sampleInitEnv noFaults sampleSuperExecuteCore sampleGetExistingVenv
              "proj" sampleStep sampleDisk) as [[outcome step'] d'].
  destruct Heffect as (Hvenv & _ & _ & Htasks & _ & Hresolves).
  split; [exact (Hresolves (fun _ _ => eq_refl) (fun _ _ _ => eq_refl))|].
  split; [exact Hvenv|exact Htasks].
Defined.

Lemma getTasks_pipInstall_resolves_sample :
  extInstallTaskName (InitEnv := sampleInitEnv) <> pipInstallLabel
  /\ extInstallTask (H := sampleInitEnv) ∈ getTasks (H := sampleInitEnv) true (Some ".venv")
  /\ dependsOn (extInstallTask (H := sampleInitEnv)) = Some pipInstallLabel
  /\ filter (fun t' => label t' = Some pipInstallLabel)
        (getTasks (H := sampleInitEnv) true (Some ".venv"))
     = [pipInstallTask (H := sampleInitEnv)].
Proof.
  assert (extInstallTaskName (InitEnv := sampleInitEnv) <> pipInstallLabel) as Hne
    by discriminate.
  assert (extInstallTask (H := sampleInitEnv)
          ∈ getTasks (H := sampleInitEnv) true (Some ".venv")) as Hin
    by (apply list_elem_of_further, list_elem_of_here).
  split; [exact Hne|]. split; [exact Hin|]. split; [reflexivity|].
  apply (getTasks_pipInstall_resolves (H := sampleInitEnv) true (Some ".venv")
           extInstallTask Hne Hin eq_refl).
Defined.

Lemma calls_leave_alone_sample :
  forallb (fun c => negb (isRefresh c || isAccessor c)) otherCalls = true
  /\ _cachedVersion
       (this (run (sampleClient None) otherCalls
                (run (sampleClient None) accessorCalls (constructor (sampleClient None))).2).2)
     = _cachedVersion
         (this (run (sampleClient None) accessorCalls (constructor (sampleClient None))).2)
  /\ forallb (fun c => negb (isLoadMoreChildren c)) callsBeforeLoad = true
  /\ _functionsTreeItem (this (run (sampleClient None) callsBeforeLoad
                                 (run (sampleClient None) otherCalls
                                    (constructor (sampleClient None))).2).2)
     = _functionsTreeItem (this (run (sampleClient None) otherCalls
                                   (constructor (sampleClient None))).2).
Proof.
  destruct (calls_leave_alone (sampleClient None) otherCalls
              (run (sampleClient None) accessorCalls (constructor (sampleClient None))).2)
    as (_ & Hcaches & _).
  destruct (calls_leave_alone (sampleClient None) callsBeforeLoad
              (run (sampleClient None) otherCalls (constructor (sampleClient None))).2)
    as (_ & _ & Hchildren).
  split; [reflexivity|]. split; [exact (proj1 (Hcaches eq_refl))|].
  split; [reflexivity|]. exact (proj1 (proj2 (Hchildren eq_refl))).
Defined.

Lemma pickTreeItemImpl_after_load_sample :
  loadMoreChildrenImpl (sampleClient None) (constructor (sampleClient None))
  = (Ok sampleChildren,
     (loadMoreChildrenImpl (sampleClient None) (constructor (sampleClient None))).2)
  /\ is_Some (head (omap lookupTable [unknownMarker; functionsMarker]))
  /\ is_Some (pickTreeItemImpl
                (this (run (sampleClient None) callsBeforeLoad
                         (loadMoreChildrenImpl (sampleClient None)
                            (constructor (sampleClient None))).2).2)
                [unknownMarker; functionsMarker]).
Proof.
  assert (is_Some (head (omap (lookupTable (H := sampleSiteEnv))
                           [unknownMarker; functionsMarker]))) as Hknown
    by (exists FunctionsChild; reflexivity).
  assert (loadMoreChildrenImpl (sampleClient None) (constructor (sampleClient None))
          = (Ok sampleChildren,
             (loadMoreChildrenImpl (sampleClient None)
                (constructor (sampleClient None))).2)) as Hload
    by reflexivity.
  split; [exact Hload|]. split; [exact Hknown|].
  exact (proj2 (pickTreeItemImpl_after_load (sampleClient None) _ _ _ callsBeforeLoad
                  [unknownMarker; functionsMarker] Hload Hknown)).
Defined.

Lemma loadMoreChildrenImpl_rejects_midway_sample :
  loadMoreChildrenImpl factoryDownClient (constructor factoryDownClient)
  = (Throw "ETIMEDOUT",
     (loadMoreChildrenImpl factoryDownClient (constructor factoryDownClient)).2)
  /\ deploymentsNode
       (this (loadMoreChildrenImpl factoryDownClient (constructor factoryDownClient)).2)
     = Some (@DeploymentsTreeItem sampleSiteEnv 3 "config" "scm").
Proof.
  assert (loadMoreChildrenImpl factoryDownClient (constructor factoryDownClient)
          = (Throw "ETIMEDOUT",
             (loadMoreChildrenImpl factoryDownClient (constructor factoryDownClient)).2))
    as Hload by reflexivity.
  split; [exact Hload|].
  exact (proj1 (loadMoreChildrenImpl_rejects_midway factoryDownClient _ _ _ Hload)).
Defined.
